(** * pricescout: the data pipeline of [app.py]

    A shallow embedding of the data handling of the dashboard
    (preprocessing, the sidebar filters, the platform ranking and the
    inputs of two charts) together with the properties its
    specification states about them.

    Conventions of the model.
    - A Python [str] is the list of its Unicode code points.
    - A pandas [float64] is an exact decimal number, or one of the three
      special values nan, inf, -inf.  Binary rounding, overflow and the
      sign of zero are not modelled: every finite value is the decimal
      that Python prints for it, which is exact for the rupee amounts the
      dataset holds (at most 15 significant digits).
    - A DataFrame is the list of its rows, in index order, together with
      the presence of the two columns the code tests for ([rating] and
      [date]). *)

From Stdlib Require Import Ascii String.
From Stdlib Require Import ZArith NArith QArith Qround Qabs List Bool Lia Lqa.
From Stdlib Require Import Sorting Permutation.
Import ListNotations.

Local Open Scope Z_scope.

(* ================================================================== *)
(** * Python strings *)

Definition char := N.
Definition str := list char.

Definition ch (a : ascii) : char := N_of_ascii a.

(** An ASCII literal as a Python string. *)
Definition lit (s : string) : str := map ch (list_ascii_of_string s).

(** U+20B9 INDIAN RUPEE SIGN. *)
Definition rupee : char := 8377%N.

Fixpoint str_eqb (a b : str) : bool :=
  match a, b with
  | [], [] => true
  | x :: a', y :: b' => N.eqb x y && str_eqb a' b'
  | _, _ => false
  end.

(** Python's [<=] on strings: lexicographic on code points. *)
Fixpoint str_leb (a b : str) : bool :=
  match a, b with
  | [], _ => true
  | _ :: _, [] => false
  | x :: a', y :: b' => N.ltb x y || (N.eqb x y && str_leb a' b')
  end.

(** [x in xs] for a list of strings. *)
Definition str_in (x : str) (xs : list str) : bool := existsb (str_eqb x) xs.

Definition is_digit (c : char) : bool := (N.leb 48 c && N.leb c 57)%bool.

(** [isspace_ascii] of the pandas tokenizer: space, \t, \n, \v, \f, \r. *)
Definition is_space (c : char) : bool :=
  (N.eqb c 32 || (N.leb 9 c && N.leb c 13))%bool.

Definition lower (c : char) : char :=
  if (N.leb 65 c && N.leb c 90)%bool then (c + 32)%N else c.

(* ================================================================== *)
(** * Numbers *)

(** [mant / 10 ^ scale].  Decimals of one value stand for one float:
    the functions below read a decimal by its value only, and what they
    compute is in normal form. *)
Record decimal := Dec { mant : Z; scale : nat }.

Definition pow10 (k : nat) : Z := 10 ^ Z.of_nat k.

(** The normal form: no trailing zero behind the decimal point. *)
Fixpoint norm_aux (m : Z) (k : nat) : decimal :=
  match k with
  | O => Dec m O
  | S k' => if m mod 10 =? 0 then norm_aux (m / 10) k' else Dec m k
  end.

Definition norm (d : decimal) : decimal := norm_aux (mant d) (scale d).

Definition dec_of_Z (z : Z) : decimal := Dec z 0.

Definition dec_Q (d : decimal) : Q := mant d # Z.to_pos (pow10 (scale d)).

Definition dec_leb (a b : decimal) : bool :=
  mant a * pow10 (scale b) <=? mant b * pow10 (scale a).

Definition dec_eqv (a b : decimal) : Prop :=
  mant a * pow10 (scale b) = mant b * pow10 (scale a).

(** A float64 column entry, over the carrier [A] of its finite values:
    [decimal] for stored numbers, [Q] for exact intermediate results. *)
Inductive ext (A : Type) : Type :=
| Fin (a : A)
| PInf
| NInf
| NaN.
Arguments Fin {A} a.
Arguments PInf {A}.
Arguments NInf {A}.
Arguments NaN {A}.

Definition float64 := ext decimal.

Definition isna {A} (x : ext A) : bool :=
  match x with NaN => true | _ => false end.

Definition is_fin {A} (x : ext A) : bool :=
  match x with Fin _ => true | _ => false end.

(** [x <= y] on floats; every comparison with nan is false. *)
Definition ext_leb {A} (le : A -> A -> bool) (x y : ext A) : bool :=
  match x, y with
  | NaN, _ | _, NaN => false
  | NInf, _ => true
  | _, PInf => true
  | Fin a, Fin b => le a b
  | _, _ => false
  end.

Definition f_leb : float64 -> float64 -> bool := ext_leb dec_leb.

(* ------------------------------------------------------------------ *)
(** ** Decimal digits *)

Definition digit_val (c : char) : N := (c - 48)%N.
Definition digit_chr (n : N) : char := (n + 48)%N.

(** Horner evaluation of a digit string, most significant digit first. *)
Definition horner (acc : N) (ds : str) : N :=
  fold_left (fun a c => (10 * a + digit_val c)%N) ds acc.

Definition N_of_digits (ds : str) : N := horner 0 ds.

Fixpoint digits_fuel (fuel : nat) (n : N) (acc : str) : str :=
  match fuel with
  | O => acc
  | S f =>
      let acc' := digit_chr (n mod 10) :: acc in
      if (n <? 10)%N then acc' else digits_fuel f (n / 10) acc'
  end.

(** The decimal digits of [n], without leading zeros ("0" for 0). *)
Definition digits_of_N (n : N) : str := digits_fuel (S (N.size_nat n)) n [].

(* ------------------------------------------------------------------ *)
(** ** [pd.to_numeric(..., errors='coerce')] on one string

    The grammar of [precise_xstrtod] as [to_double] calls it (decimal
    point '.', exponent mark 'e' or 'E', no thousands separator, trailing
    blanks skipped), the whole string having to be consumed:
    blanks, an optional sign, digits, an optional '.' and digits (at
    least one digit in all), an optional exponent, blanks.  The C code
    keeps 17 significant digits and the range of a double; here the
    value is exact. *)

Fixpoint skip_space (s : str) : str :=
  match s with
  | c :: r => if is_space c then skip_space r else s
  | [] => []
  end.

Definition take_sign (s : str) : bool * str :=
  match s with
  | c :: r =>
      if N.eqb c (ch "-") then (true, r)
      else if N.eqb c (ch "+") then (false, r)
      else (false, s)
  | [] => (false, [])
  end.

Fixpoint span_digits (s : str) : str * str :=
  match s with
  | c :: r =>
      if is_digit c
      then let (ds, rest) := span_digits r in (c :: ds, rest)
      else ([], s)
  | [] => ([], [])
  end.

Definition take_fraction (s : str) : str * str :=
  match s with
  | c :: r => if N.eqb c (ch ".") then span_digits r else ([], s)
  | [] => ([], [])
  end.

(** The exponent part.  An exponent mark that no digit follows is put
    back by the C code and then stops the parse short of the end of the
    string, which [to_double] reports as a failure: [None] here. *)
Definition take_exponent (s : str) : option (Z * str) :=
  match s with
  | c :: r =>
      if N.eqb (lower c) (ch "e") then
        let (neg, r1) := take_sign r in
        let (ds, r2) := span_digits r1 in
        match ds with
        | [] => None
        | _ :: _ =>
            let n := Z.of_N (N_of_digits ds) in
            Some (if neg then - n else n, r2)
        end
      else Some (0, s)
  | [] => Some (0, [])
  end.

(** [m * 10 ^ (e - frac)] as a decimal. *)
Definition scale10 (m : Z) (frac : nat) (e : Z) : decimal :=
  let net := Z.of_nat frac - e in
  if 0 <=? net then Dec m (Z.to_nat net) else Dec (m * 10 ^ (- net)) 0.

Definition xstrtod (s : str) : option decimal :=
  let (neg, s2) := take_sign (skip_space s) in
  let (ip, s3) := span_digits s2 in
  let (fp, s4) := take_fraction s3 in
  match ip ++ fp with
  | [] => None
  | _ :: _ =>
      let m := Z.of_N (N_of_digits (ip ++ fp)) in
      match take_exponent s4 with
      | None => None
      | Some (e, s5) =>
          match skip_space s5 with
          | [] => Some (scale10 (if neg then - m else m) (length fp) e)
          | _ :: _ => None
          end
      end
  end.

(** The spellings of infinity that [floatify] accepts when the numeric
    parse fails (compared without regard to case). *)
Definition infinity_of (s : str) : option bool :=
  let l := map lower s in
  if str_eqb l (lit "inf") || str_eqb l (lit "+inf")
     || str_eqb l (lit "infinity") || str_eqb l (lit "+infinity")
  then Some false
  else if str_eqb l (lit "-inf") || str_eqb l (lit "-infinity")
  then Some true
  else None.

Definition to_numeric_str (s : str) : float64 :=
  match xstrtod s with
  | Some d => Fin (norm d)
  | None =>
      match infinity_of s with
      | Some false => PInf
      | Some true => NInf
      | None => NaN
      end
  end.

(* ------------------------------------------------------------------ *)
(** ** [str(x)] of a float: Python's [repr]

    From the digit string [ds] of the value without trailing zeros and
    the position [decpt] of the decimal point ([0.ds * 10 ^ decpt]):
    positional notation when [-4 < decpt <= 16], with ".0" added to an
    integer, and otherwise [d.ddde+XX] with a signed exponent of at
    least two digits. *)

Fixpoint strip_zeros_rev (rev_ds : str) : str :=
  match rev_ds with
  | c :: r => if N.eqb c (ch "0") then strip_zeros_rev r else rev_ds
  | [] => []
  end.

(** [ds] without its trailing zeros. *)
Definition strip_trailing_zeros (ds : str) : str :=
  rev (strip_zeros_rev (rev ds)).

Definition zeros (n : nat) : str := repeat (ch "0") n.

Definition repr_fixed (ds : str) (k : nat) : str :=
  let n := length ds in
  if (n <=? k)%nat then lit "0." ++ zeros (k - n) ++ ds
  else match k with
       | O => ds ++ lit ".0"
       | S _ => firstn (n - k) ds ++ ch "." :: skipn (n - k) ds
       end.

Definition repr_exp (ds : str) (decpt : Z) : str :=
  let e := decpt - 1 in
  let es := digits_of_N (Z.to_N (Z.abs e)) in
  let es2 := match es with [_] => ch "0" :: es | _ => es end in
  let sign := if e <? 0 then ch "-" else ch "+" in
  match strip_trailing_zeros ds with
  | [] => []
  | d1 :: [] => d1 :: ch "e" :: sign :: es2
  | d1 :: rest => d1 :: ch "." :: rest ++ ch "e" :: sign :: es2
  end.

Definition repr_decimal (d : decimal) : str :=
  let d := norm d in
  let m := mant d in
  let k := scale d in
  let ds := digits_of_N (Z.to_N (Z.abs m)) in
  let decpt := Z.of_nat (length ds) - Z.of_nat k in
  let body :=
    if (m =? 0) || ((-4 <? decpt) && (decpt <=? 16))
    then repr_fixed ds k
    else repr_exp ds decpt in
  if m <? 0 then ch "-" :: body else body.

Definition str_of_float (x : float64) : str :=
  match x with
  | Fin d => repr_decimal d
  | PInf => lit "inf"
  | NInf => lit "-inf"
  | NaN => lit "nan"
  end.

(* ================================================================== *)
(** * DataFrames *)

(** A cell of a column that [read_csv] left as it found it: a string, or
    a number (nan for a missing entry).  An integer column is a column of
    numbers too: its entries print without ".0" and read back as the same
    numbers. *)
Inductive cell :=
| Str (s : str)
| Num (x : float64).

(** A calendar date (a timestamp at midnight). *)
Record timestamp := Date { year : Z; month : Z; day : Z }.

(** A cell of the [date] column: a string, a timestamp, or missing. *)
Inductive dcell :=
| DStr (s : str)
| DTime (t : timestamp)
| DNaT.

(** One row, over the types of the [price], [rating] and [date]
    entries.  The columns brand, model, platform, price and city are
    taken as present and brand, model, platform and city as strings; the
    code itself tests for the other two columns, whose presence the frame
    records.  The entry of a row under an absent column is not part of
    the DataFrame and is never read. *)
Record row (P R D : Type) := Row {
  brand : str;
  model : str;
  platform : str;
  price : P;
  city : str;
  rating : R;
  date : D
}.
Arguments Row {P R D}.
Arguments brand {P R D}.
Arguments model {P R D}.
Arguments platform {P R D}.
Arguments price {P R D}.
Arguments city {P R D}.
Arguments rating {P R D}.
Arguments date {P R D}.

Record frame (P R D : Type) := Frame {
  has_rating : bool;
  has_date : bool;
  rows : list (row P R D)
}.
Arguments Frame {P R D}.
Arguments has_rating {P R D}.
Arguments has_date {P R D}.
Arguments rows {P R D}.

(** What [load_data] returns. *)
Definition raw_row := row cell cell dcell.
Definition raw_frame := frame cell cell dcell.

(** A row with numeric price and rating and a converted date: a row of
    the preprocessed table. *)
Definition listing := row float64 float64 (option timestamp).
Definition table := frame float64 float64 (option timestamp).

(** [df.empty] *)
Definition empty {P R D} (df : frame P R D) : bool :=
  match rows df with [] => true | _ :: _ => false end.

Definition set_price {P P' R D} (f : P -> P') (r : row P R D) : row P' R D :=
  Row (brand r) (model r) (platform r) (f (price r)) (city r) (rating r) (date r).

Definition set_rating {P R R' D} (f : R -> R') (r : row P R D) : row P R' D :=
  Row (brand r) (model r) (platform r) (price r) (city r) (f (rating r)) (date r).

Definition set_date {P R D D'} (f : D -> D') (r : row P R D) : row P R D' :=
  Row (brand r) (model r) (platform r) (price r) (city r) (rating r) (f (date r)).

(* ================================================================== *)
(** * Preprocessor: [preprocess_data] *)

(** [.astype(str)] on one cell. *)
Definition astype_str (c : cell) : str :=
  match c with
  | Str s => s
  | Num x => str_of_float x
  end.

(** [.str.replace('[₹,]', '', regex=True)] on one string. *)
Definition str_replace (s : str) : str :=
  filter (fun c => negb (N.eqb c rupee || N.eqb c (ch ","))) s.

(** [pd.to_numeric(..., errors='coerce')] on one cell of an object or
    numeric column. *)
Definition to_numeric (c : cell) : float64 :=
  match c with
  | Str s => to_numeric_str s
  | Num x => x
  end.

(** Line 77, on one cell. *)
Definition clean_price (c : cell) : float64 :=
  to_numeric (Str (str_replace (astype_str c))).

(** The parser behind [pd.to_datetime]: which strings denote which
    dates is left to the library. *)
Class DateParser := parse_datetime : str -> option timestamp.

(** [pd.to_datetime(..., errors='coerce')] on one cell. *)
Definition to_datetime `{DateParser} (c : dcell) : option timestamp :=
  match c with
  | DStr s => parse_datetime s
  | DTime t => Some t
  | DNaT => None
  end.

(** A call returns, or raises [KeyError] for a column that is absent. *)
Inductive result (A : Type) : Type :=
| Ok (a : A)
| KeyError (column : string).
Arguments Ok {A} a.
Arguments KeyError {A} column.

(** [df.dropna(subset=['price'])] *)
Definition dropna_price {R D} (rs : list (row float64 R D)) : list (row float64 R D) :=
  filter (fun r => negb (isna (price r))) rs.

(** [preprocess_data].  The two column assignments of lines 77 and 80
    also write into the caller's frame; the model follows the returned
    frame only. *)
Definition preprocess_data `{DateParser} (df : raw_frame) : result table :=
  if empty df then Ok (Frame (has_rating df) (has_date df) [])
  else
    let rs1 := map (set_price clean_price) (rows df) in
    if negb (has_rating df) then KeyError "rating"
    else
      let rs2 := map (set_rating to_numeric) rs1 in
      let rs3 := dropna_price rs2 in
      let rs4 :=
        if has_date df then map (set_date to_datetime) rs3
        else map (set_date (fun _ => None)) rs3 in
      Ok (Frame true (has_date df) rs4).



(* ================================================================== *)
(** * Filter Engine: the sidebar filters of [main] *)

Record criteria := Criteria {
  selected_brands : list str;
  price_range : Z * Z;
  selected_platforms : list str;
  selected_city : str
}.

(** The sentinel of the three selection widgets. *)
Definition All : str := lit "All".

Definition of_int (z : Z) : float64 := Fin (dec_of_Z z).

(** [Series.min()] and [Series.max()]: nan entries are skipped, and the
    result is nan when nothing is left. *)
Definition f_min (x y : float64) : float64 :=
  match x, y with
  | NaN, _ => y
  | _, NaN => x
  | _, _ => if f_leb x y then x else y
  end.

Definition f_max (x y : float64) : float64 :=
  match x, y with
  | NaN, _ => y
  | _, NaN => x
  | _, _ => if f_leb x y then y else x
  end.

Definition series_min (xs : list float64) : float64 := fold_left f_min xs NaN.
Definition series_max (xs : list float64) : float64 := fold_left f_max xs NaN.

(** [int(x)] of a float: truncation toward zero; [ValueError] on nan and
    [OverflowError] on an infinity, here [None]. *)
Definition py_int (x : float64) : option Z :=
  match x with
  | Fin d => Some (Z.quot (mant d) (pow10 (scale d)))
  | _ => None
  end.

(** Lines 238-245: the bounds of the price slider and its initial value,
    the whole range. *)
Definition default_price_range (df : table) : option (Z * Z) :=
  let prices := map price (rows df) in
  match py_int (series_min prices), py_int (series_max prices) with
  | Some min_price, Some max_price => Some (min_price, max_price)
  | _, _ => None
  end.

Definition brand_ok (c : criteria) (r : listing) : bool :=
  str_in All (selected_brands c) || str_in (brand r) (selected_brands c).

Definition price_ok (c : criteria) (r : listing) : bool :=
  f_leb (of_int (fst (price_range c))) (price r)
  && f_leb (price r) (of_int (snd (price_range c))).

Definition platform_ok (c : criteria) (r : listing) : bool :=
  str_in All (selected_platforms c) || str_in (platform r) (selected_platforms c).

Definition city_ok (c : criteria) (r : listing) : bool :=
  str_eqb (selected_city c) All || str_eqb (city r) (selected_city c).

(** Lines 266-267. *)
Definition brand_filter (c : criteria) (rs : list listing) : list listing :=
  if negb (str_in All (selected_brands c))
  then filter (fun r => str_in (brand r) (selected_brands c)) rs
  else rs.

(** Lines 269-272. *)
Definition price_filter (c : criteria) (rs : list listing) : list listing :=
  filter (fun r => f_leb (of_int (fst (price_range c))) (price r)
                   && f_leb (price r) (of_int (snd (price_range c)))) rs.

(** Lines 274-275. *)
Definition platform_filter (c : criteria) (rs : list listing) : list listing :=
  if negb (str_in All (selected_platforms c))
  then filter (fun r => str_in (platform r) (selected_platforms c)) rs
  else rs.

(** Lines 277-278. *)
Definition city_filter (c : criteria) (rs : list listing) : list listing :=
  if negb (str_eqb (selected_city c) All)
  then filter (fun r => str_eqb (city r) (selected_city c)) rs
  else rs.

(** Lines 264-278: [filtered_df]. *)
Definition filtered_df (c : criteria) (df : table) : table :=
  let rs0 := rows df in
  let rs1 := brand_filter c rs0 in
  let rs2 := price_filter c rs1 in
  let rs3 := platform_filter c rs2 in
  let rs4 := city_filter c rs3 in
  Frame (has_rating df) (has_date df) rs4.

(** The four filters applied in an order of one's choosing. *)
Inductive dimension := ByBrand | ByPrice | ByPlatform | ByCity.

Definition apply_filter (c : criteria) (d : dimension) : list listing -> list listing :=
  match d with
  | ByBrand => brand_filter c
  | ByPrice => price_filter c
  | ByPlatform => platform_filter c
  | ByCity => city_filter c
  end.

Definition apply_in_order (c : criteria) (order : list dimension)
    (rs : list listing) : list listing :=
  fold_left (fun acc d => apply_filter c d acc) order rs.

(** The criteria of the claim on the identity: every selection on "All"
    and the slider on its initial value. *)
Definition select_all (range : Z * Z) : criteria :=
  Criteria [All] range [All] All.

(** A row list in which [sub] keeps some rows of [l], unchanged and in
    their order. *)
Inductive sublist {A : Type} : list A -> list A -> Prop :=
| sublist_nil : sublist [] []
| sublist_skip x sub l : sublist sub l -> sublist sub (x :: l)
| sublist_keep x sub l : sublist sub l -> sublist (x :: sub) (x :: l).

(* ================================================================== *)
(** * Aggregator: [identify_cheapest_platforms] *)

(** ** [groupby]: the distinct keys in ascending order, each with its
    rows in their order; rows without a key are left out. *)

Section GroupBy.
Context {K R : Type} (k_eqb k_leb : K -> K -> bool) (key : R -> option K).

Fixpoint insert_key (k : K) (ks : list K) : list K :=
  match ks with
  | [] => [k]
  | x :: r =>
      if k_eqb k x then ks
      else if k_leb k x then k :: ks
      else x :: insert_key k r
  end.

Fixpoint group_keys (rs : list R) : list K :=
  match rs with
  | [] => []
  | r :: rs' =>
      match key r with
      | Some k => insert_key k (group_keys rs')
      | None => group_keys rs'
      end
  end.

Definition has_key (k : K) (r : R) : bool :=
  match key r with
  | Some k' => k_eqb k' k
  | None => false
  end.

Definition groupby (rs : list R) : list (K * list R) :=
  map (fun k => (k, filter (has_key k) rs)) (group_keys rs).
End GroupBy.

(** ** The reductions of a price column *)

Definition q_of (x : float64) : ext Q :=
  match x with
  | Fin d => Fin (dec_Q d)
  | PInf => PInf
  | NInf => NInf
  | NaN => NaN
  end.

Definition ext_add (x y : ext Q) : ext Q :=
  match x, y with
  | NaN, _ | _, NaN => NaN
  | PInf, NInf | NInf, PInf => NaN
  | PInf, _ | _, PInf => PInf
  | NInf, _ | _, NInf => NInf
  | Fin a, Fin b => Fin (a + b)%Q
  end.

Definition ext_div (x : ext Q) (n : Z) : ext Q :=
  match x with
  | Fin a => if n =? 0 then NaN else Fin (a / inject_Z n)%Q
  | _ => x
  end.

Definition notna (xs : list float64) : list float64 :=
  filter (fun x => negb (isna x)) xs.

(** ['count']: the entries that are not nan. *)
Definition agg_count (xs : list float64) : Z := Z.of_nat (length (notna xs)).

(** ['mean']: nan entries are skipped. *)
Definition agg_mean (xs : list float64) : ext Q :=
  ext_div (fold_left ext_add (map q_of (notna xs)) (Fin 0%Q)) (agg_count xs).

(** ['min'] *)
Definition agg_min (xs : list float64) : float64 := series_min xs.

(** Rounding to the nearest integer, ties to the even one. *)
Definition round_half_even (q : Q) : Z :=
  let f := Qfloor q in
  match Qcompare (q - inject_Z f) (1 # 2) with
  | Lt => f
  | Gt => f + 1
  | Eq => if Z.even f then f else f + 1
  end.

(** [.round(2)] on one float. *)
Definition round2 (x : ext Q) : float64 :=
  match x with
  | Fin q => Fin (norm (Dec (round_half_even (q * 100)) 2))
  | PInf => PInf
  | NInf => NInf
  | NaN => NaN
  end.

Module Stats.
(** One row of [platform_stats]. *)
Record t := Make {
  platform : str;
  avg_price : float64;
  min_price : float64;
  product_count : Z
}.
End Stats.

(** Lines 205-209: one row per platform, in the order of the keys. *)
Definition group_stats (rs : list listing) : list Stats.t :=
  map (fun g : str * list listing =>
         let prices := map price (snd g) in
         Stats.Make (fst g)
                    (round2 (agg_mean prices))
                    (round2 (q_of (agg_min prices)))
                    (agg_count prices))
      (groupby str_eqb str_leb (fun r : listing => Some (platform r)) rs).

(** The order of [sort_values]: ascending, nan last. *)
Definition na_last_leb (x y : float64) : bool :=
  match x, y with
  | _, NaN => true
  | NaN, _ => false
  | _, _ => f_leb x y
  end.

(** [sort_values] as a stable insertion sort.  (The algorithm pandas
    picks by default sorts, but promises no order among equal keys.) *)
Section Sort.
Context {A : Type} (leb : A -> A -> bool).

Fixpoint insert_sorted (a : A) (l : list A) : list A :=
  match l with
  | [] => [a]
  | y :: r => if leb a y then a :: l else y :: insert_sorted a r
  end.

Fixpoint sort_values (l : list A) : list A :=
  match l with
  | [] => []
  | a :: r => insert_sorted a (sort_values r)
  end.
End Sort.

Definition by_avg_price (a b : Stats.t) : bool :=
  na_last_leb (Stats.avg_price a) (Stats.avg_price b).

(** Line 210: the ranking. *)
Definition platform_stats (df : table) : list Stats.t :=
  sort_values by_avg_price (group_stats (rows df)).

(** Line 212: [platform_stats.head(2)]. *)
Definition identify_cheapest_platforms (df : table) : list Stats.t :=
  firstn 2 (platform_stats df).

(* ================================================================== *)
(** * View builders *)

(** ** [create_rating_price_scatter] *)

(** A call of [st.warning]. *)
Inductive notice := Warning (message : string).

Module Scatter.
(** What [px.scatter] is given of one row. *)
Record point := Make {
  x : float64;             (* rating *)
  y : float64;             (* price *)
  color : str;             (* platform *)
  size : float64;          (* price *)
  hover_data : str * str   (* brand, model *)
}.
End Scatter.

Definition scatter_point_of (r : listing) : Scatter.point :=
  Scatter.Make (rating r) (price r) (platform r) (price r) (brand r, model r).

(** The notices shown, and the chart input or [None]. *)
Definition create_rating_price_scatter (df : table)
    : list notice * option (list Scatter.point) :=
  if negb (has_rating df) || forallb (fun r => isna (rating r)) (rows df)
  then ([Warning "Rating data not available for scatter plot analysis."], None)
  else ([], Some (map scatter_point_of (rows df))).

(** ** [create_price_trend_chart] *)

Definition is_leap (y : Z) : bool :=
  (y mod 4 =? 0) && (negb (y mod 100 =? 0) || (y mod 400 =? 0)).

Definition days_in_month (y m : Z) : Z :=
  if m =? 2 then (if is_leap y then 29 else 28)
  else if (m =? 4) || (m =? 6) || (m =? 9) || (m =? 11) then 30
  else 31.

Definition date_leb (a b : timestamp) : bool :=
  (year a <? year b)
  || ((year a =? year b)
      && ((month a <? month b) || ((month a =? month b) && (day a <=? day b)))).

(** The ends of [n] months in a row, from month [m] of year [y] on. *)
Fixpoint month_ends (n : nat) (y m : Z) : list timestamp :=
  match n with
  | O => []
  | S n' =>
      Date y m (days_in_month y m)
      :: (if m =? 12 then month_ends n' (y + 1) 1 else month_ends n' y (m + 1))
  end.

(** [pd.date_range(start, end, freq='M')]: the month ends from [start]
    to [end]. *)
Definition date_range_M (start stop : timestamp) : list timestamp :=
  let months := (year stop - year start) * 12 + (month stop - month start) + 1 in
  filter (fun d => date_leb start d && date_leb d stop)
         (month_ends (Z.to_nat months) (year start) (month start)).

(** NumPy's global generator, as the sequence of the draws it has yet
    to make. *)
Definition rng := nat -> Z.

(** [np.random.randint(low, high, n)]: [n] draws brought into
    [low, high), and the generator behind them. *)
Definition randint (low high : Z) (n : nat) (g : rng) : list Z * rng :=
  (map (fun i => low + g i mod (high - low)) (seq 0 n),
   fun i => g (n + i)%nat).

Definition period_eqb (a b : Z * Z) : bool :=
  (fst a =? fst b) && (snd a =? snd b).

Definition period_leb (a b : Z * Z) : bool :=
  (fst a <? fst b) || ((fst a =? fst b) && (snd a <=? snd b)).

(** [df['date'].dt.to_period('M')] on one row. *)
Definition to_period_M (r : listing) : option (Z * Z) :=
  match date r with
  | Some t => Some (year t, month t)
  | None => None
  end.

(** What [px.line] is given: the sample series, or the monthly means. *)
Inductive trend :=
| SampleData (points : list (timestamp * Z))
| MonthlyPrices (points : list (timestamp * ext Q)).

Definition create_price_trend_chart (df : table) (g : rng) : trend * rng :=
  if negb (has_date df) || forallb (fun r => match date r with None => true | Some _ => false end) (rows df)
  then
    let sample_dates := date_range_M (Date 2024 1 1) (Date 2024 12 31) in
    let (avg_price, g') := randint 40000 80000 (length sample_dates) g in
    (SampleData (combine sample_dates avg_price), g')
  else
    let monthly_prices :=
      map (fun grp : (Z * Z) * list listing =>
             (Date (fst (fst grp)) (snd (fst grp)) 1,
              agg_mean (map price (snd grp))))
          (groupby period_eqb period_leb to_period_M (rows df)) in
    (MonthlyPrices monthly_prices, g).

(* ================================================================== *)
(** * Sample data *)

Definition mk_listing (b m p : string) (pr : Z) (c : string) (rt : float64) : listing :=
  Row (lit b) (lit m) (lit p) (of_int pr) (lit c) rt None.

Definition mk_raw (b m p : string) (pr : cell) (c : string) (rt : cell)
    (d : dcell) : raw_row :=
  Row (lit b) (lit m) (lit p) pr (lit c) rt d.

(** Platforms A (45000 and 55000), B (40000) and C (60000). *)
Definition abc_table : table :=
  Frame true false
    [ mk_listing "HP" "Pavilion" "A" 45000 "Bhopal" (Fin (Dec 41 1));
      mk_listing "Dell" "Inspiron" "C" 60000 "Bhopal" NaN;
      mk_listing "HP" "Victus" "B" 40000 "Indore" (Fin (Dec 4 0));
      mk_listing "Asus" "Vivobook" "A" 55000 "Bhopal" (Fin (Dec 45 1)) ].

(** A date parser for the examples: the ISO form YYYY-MM-DD. *)
Definition iso_date (s : str) : option timestamp :=
  match s with
  | [y1; y2; y3; y4; h1; m1; m2; h2; d1; d2] =>
      if forallb is_digit [y1; y2; y3; y4; m1; m2; d1; d2]
         && N.eqb h1 (ch "-") && N.eqb h2 (ch "-")
      then
        let y := Z.of_N (N_of_digits [y1; y2; y3; y4]) in
        let m := Z.of_N (N_of_digits [m1; m2]) in
        let d := Z.of_N (N_of_digits [d1; d2]) in
        if (1 <=? m) && (m <=? 12) && (1 <=? d) && (d <=? days_in_month y m)
        then Some (Date y m d) else None
      else None
  | _ => None
  end.


(** The printed exponent part of a number, and the value it denotes. *)
Definition exp_str (e : option (bool * str)) : str :=
  match e with
  | None => []
  | Some (eneg, es) => ch "e" :: (if eneg then ch "-" else ch "+") :: es
  end.

Definition exp_val (e : option (bool * str)) : Z :=
  match e with
  | None => 0
  | Some (eneg, es) =>
      let n := Z.of_N (N_of_digits es) in if eneg then - n else n
  end.

Definition well_exp (e : option (bool * str)) : Prop :=
  match e with
  | None => True
  | Some (_, es) => es <> [] /\ forallb is_digit es = true
  end.

Definition sign_str (neg : bool) : str := if neg then [ch "-"] else [].

Definition signed (neg : bool) (n : N) : Z :=
  if neg then - Z.of_N n else Z.of_N n.

(** The characters [str.replace] leaves alone. *)
Definition plain (c : char) : bool := negb (N.eqb c rupee || N.eqb c (ch ",")).

(** Canonical decimals: no trailing zero behind the point. *)
Definition canonical (d : decimal) : Prop :=
  scale d = O \/ mant d mod 10 <> 0.

(* ================================================================== *)
(** * Vocabulary of the statements *)

(** One row through lines 77 to 85. *)
Definition clean_row `{DateParser} (with_date : bool) (r : raw_row) : listing :=
  set_date (if with_date then to_datetime else fun _ => None)
           (set_rating to_numeric (set_price clean_price r)).

(** A row whose price does not survive line 77. *)
Definition unparsable (r : raw_row) : bool := isna (clean_price (price r)).



(** The number a plain numeral denotes. *)
Definition numeral_value (ip fp : str) : decimal :=
  norm (Dec (Z.of_N (N_of_digits (ip ++ fp))) (length fp)).


Definition nonnegative (x : float64) : bool := f_leb (of_int 0) x.

(** The price string of the specification. *)
Definition rupee_123456 : str := rupee :: lit "1,23,456".

(** A frame with one good price, one bad one and one below zero. *)
Definition mixed_frame : raw_frame :=
  Frame true true
    [ mk_raw "HP" "Pavilion" "Amazon" (Str rupee_123456) "Bhopal"
             (Str (lit "4.5")) (DStr (lit "2024-03-15"));
      mk_raw "Dell" "Inspiron" "Flipkart" (Str (lit "call us")) "Bhopal"
             (Num NaN) (DStr (lit "2024-04-01"));
      mk_raw "Asus" "Vivobook" "Amazon" (Str (rupee :: lit "-500")) "Indore"
             (Str (lit "n/a")) (DStr (lit "soon")) ].

(** What [preprocess_data] makes of it. *)
Definition mixed_table : table :=
  Frame true true
    [ Row (lit "HP") (lit "Pavilion") (lit "Amazon") (Fin (Dec 123456 0))
          (lit "Bhopal") (Fin (Dec 45 1)) (Some (Date 2024 3 15));
      Row (lit "Asus") (lit "Vivobook") (lit "Amazon") (Fin (Dec (-500) 0))
          (lit "Indore") NaN None ].

(** Two prices, the higher one not a whole number of rupees. *)
Definition fractional_frame : raw_frame :=
  Frame true false
    [ mk_raw "HP" "Pavilion" "Amazon" (Str (lit "1000")) "Bhopal" (Num NaN) DNaT;
      mk_raw "Dell" "Inspiron" "Flipkart" (Str (lit "1500.5")) "Bhopal" (Num NaN) DNaT ].

Definition fractional_table : table :=
  Frame true false
    [ Row (lit "HP") (lit "Pavilion") (lit "Amazon") (Fin (Dec 1000 0))
          (lit "Bhopal") NaN None;
      Row (lit "Dell") (lit "Inspiron") (lit "Flipkart") (Fin (Dec 15005 1))
          (lit "Bhopal") NaN None ].

(** What a row has to satisfy under one filter. *)
Definition dim_ok (c : criteria) (d : dimension) : listing -> bool :=
  match d with
  | ByBrand => brand_ok c
  | ByPrice => price_ok c
  | ByPlatform => platform_ok c
  | ByCity => city_ok c
  end.

Definition source_order : list dimension := [ByBrand; ByPrice; ByPlatform; ByCity].


(** The orders the statements on [groupby] and [sort_values] speak of. *)
Definition strictly_below {K : Type} (leb : K -> K -> bool) (a b : K) : Prop :=
  leb a b = true /\ a <> b.

Definition le_of {A : Type} (leb : A -> A -> bool) (a b : A) : Prop :=
  leb a b = true.

(** The sum of the numbers of a column. *)
Definition sum_Q (xs : list float64) : Q :=
  fold_right (fun x acc => match x with Fin d => dec_Q d + acc | _ => acc end)%Q
             0%Q xs.



(** The dates of the sample series: the month ends of 2024. *)
Definition month_ends_2024 : list timestamp :=
  [ Date 2024 1 31; Date 2024 2 29; Date 2024 3 31; Date 2024 4 30;
    Date 2024 5 31; Date 2024 6 30; Date 2024 7 31; Date 2024 8 31;
    Date 2024 9 30; Date 2024 10 31; Date 2024 11 30; Date 2024 12 31 ].

(** A generator for the examples: it yields 0, 1, 2, ... *)
Definition counting : rng := fun i => Z.of_nat i.


(* ================================================================== *)
(** * The other chart builders *)

(** The order of [sort_values] on a column of exact means: ascending,
    nan last. *)
Definition q_na_last_leb (x y : ext Q) : bool :=
  match x, y with
  | _, NaN => true
  | NaN, _ => false
  | _, _ => ext_leb Qle_bool x y
  end.

Definition by_price (a b : str * ext Q) : bool := q_na_last_leb (snd a) (snd b).

(** [create_price_per_platform_chart]: the table [px.bar] is given, one
    row (platform, mean price) per platform, sorted by the mean. *)
Definition create_price_per_platform_chart (df : table) : list (str * ext Q) :=
  let avg_prices :=
    map (fun g : str * list listing => (fst g, agg_mean (map price (snd g))))
        (groupby str_eqb str_leb (fun r : listing => Some (platform r)) (rows df)) in
  sort_values by_price avg_prices.

(** [create_price_distribution_chart]: [px.box] is given the table as
    it is, and reads brand and price of each row. *)
Definition create_price_distribution_chart (df : table) : list (str * float64) :=
  map (fun r => (brand r, price r)) (rows df).

(** [Series.unique()]: the distinct values, each at its first place. *)
Fixpoint unique (xs : list str) : list str :=
  match xs with
  | [] => []
  | x :: r => x :: filter (fun y => negb (str_eqb y x)) (unique r)
  end.

Definition by_count_desc (a b : str * Z) : bool := snd b <=? snd a.

(** [Series.value_counts()]: each distinct value with the number of its
    occurrences, the most frequent first.  (Among equal counts pandas
    promises no order; here the value seen first comes first.) *)
Definition value_counts (xs : list str) : list (str * Z) :=
  sort_values by_count_desc
    (map (fun k => (k, Z.of_nat (length (filter (fun x => str_eqb x k) xs))))
         (unique xs)).

(** [create_platform_market_share_chart]: the table [px.pie] is given,
    one row (platform, count) per platform. *)
Definition create_platform_market_share_chart (df : table) : list (str * Z) :=
  value_counts (map platform (rows df)).



(** The rows dated in month [m] of year [y]. *)
Definition in_month (y m : Z) (r : listing) : bool :=
  match date r with
  | Some t => (year t =? y) && (month t =? m)
  | None => false
  end.

(** Four listings over three months, and one without a date. *)
Definition dated_table : table :=
  Frame true true
    [ Row (lit "HP") (lit "Pavilion") (lit "A") (of_int 45000) (lit "Bhopal")
          (Fin (Dec 41 1)) (Some (Date 2024 3 15));
      Row (lit "Dell") (lit "Inspiron") (lit "C") (of_int 60000) (lit "Bhopal")
          NaN (Some (Date 2024 1 20));
      Row (lit "HP") (lit "Victus") (lit "B") (of_int 40000) (lit "Indore")
          (Fin (Dec 4 0)) None;
      Row (lit "Asus") (lit "Vivobook") (lit "A") (of_int 55000) (lit "Bhopal")
          (Fin (Dec 45 1)) (Some (Date 2024 3 2));
      Row (lit "Acer") (lit "Aspire") (lit "B") (of_int 38000) (lit "Bhopal")
          NaN (Some (Date 2023 12 31)) ].

(* ================================================================== *)
(** * [load_data] and [main] *)

(** What [main] puts on the page beside the charts: a call of
    [st.error], or a notice. *)
Inductive message :=
| Error (text : string)
| Notice (n : notice).

(** [load_data], given what [read_csv] finds: the frame of the file, or
    no file.  (The cache in front of it returns what the first call
    returned; it is not modelled.) *)
Definition load_data (file : option raw_frame) : list message * raw_frame :=
  match file with
  | Some df => ([], df)
  | None =>
      ([Error "Dataset not found. Please ensure 'data/laptop_prices.csv' exists."],
       Frame false false [])
  end.

(** ** [f"₹{x:,.0f}"] *)

(** Commas between groups of three, on the digits in reverse. *)
Fixpoint commas_rev (r : str) : str :=
  match r with
  | a :: b :: c :: rest =>
      match rest with
      | [] => r
      | _ :: _ => a :: b :: c :: ch "," :: commas_rev rest
      end
  | _ => r
  end.

Definition with_commas (ds : str) : str := rev (commas_rev (rev ds)).

(** [format(x, ',.0f')]: rounded to a whole number, ties to even, with
    thousands separators, and a minus sign on a number below zero. *)
Definition format_comma_0f (x : ext Q) : str :=
  match x with
  | Fin q =>
      (if Qle_bool 0 q then [] else [ch "-"])
      ++ with_commas (digits_of_N (Z.to_N (Z.abs (round_half_even q))))
  | PInf => lit "inf"
  | NInf => lit "-inf"
  | NaN => lit "nan"
  end.

Definition rupees (x : ext Q) : str := rupee :: format_comma_0f x.

(** ** The widgets *)

(** What the user has set in the sidebar; [None] for a widget left
    alone, which then returns its default. *)
Record session := Session {
  picked_brands : option (list str);
  picked_range : option (Z * Z);
  picked_platforms : option (list str);
  picked_city : option str
}.


Definition Bhopal : str := lit "Bhopal".

(** [xs.index(x)] for an [x] in [xs]. *)
Fixpoint index_of (x : str) (xs : list str) : nat :=
  match xs with
  | [] => O
  | y :: r => if str_eqb y x then O else S (index_of x r)
  end.

(** Lines 256-261: the options of the city box and its default. *)
Definition cities (df : table) : list str := All :: unique (map city (rows df)).

Definition default_city (df : table) : str :=
  nth (if str_in Bhopal (cities df) then index_of Bhopal (cities df) else O)
      (cities df) [].

(** Lines 229-261: the criteria the widgets return, when line 238 does
    not raise. *)
Definition selection (df : table) (s : session) : option criteria :=
  match default_price_range df with
  | None => None
  | Some full_range =>
      Some (Criteria
              (match picked_brands s with Some l => l | None => [All] end)
              (match picked_range s with Some r => r | None => full_range end)
              (match picked_platforms s with Some l => l | None => [All] end)
              (match picked_city s with Some c => c | None => default_city df end))
  end.

(** ** The page *)

(** Lines 281-302: the four metrics. *)
Record metrics := Metrics {
  total_products : Z;
  average_price : str;
  lowest_price : str;
  highest_price : str
}.

Definition key_metrics (df : table) : metrics :=
  let prices := map price (rows df) in
  if empty df
  then Metrics 0 (rupee :: lit "0") (rupee :: lit "0") (rupee :: lit "0")
  else Metrics (Z.of_nat (length (rows df)))
               (rupees (agg_mean prices))
               (rupees (q_of (series_min prices)))
               (rupees (q_of (series_max prices))).

(** Lines 313-322: one card of the recommendation. *)
Record card := Card {
  rank : nat;
  card_platform : str;
  card_average : str;
  card_lowest : str;
  card_products : Z
}.

Fixpoint cards_from (idx : nat) (l : list Stats.t) : list card :=
  match l with
  | [] => []
  | s :: r =>
      Card (idx + 1) (Stats.platform s)
           (rupees (q_of (Stats.avg_price s)))
           (rupees (q_of (Stats.min_price s)))
           (Stats.product_count s)
      :: cards_from (S idx) r
  end.

(** A row of the data table: a listing without its date. *)
Definition detail_row := row float64 float64 unit.

Definition by_row_price (a b : detail_row) : bool :=
  na_last_leb (price a) (price b).

(** Lines 356-359: the columns picked, the rows sorted by price. *)
Definition detail_table (df : table) : list detail_row :=
  sort_values by_row_price (map (set_date (fun _ => tt)) (rows df)).

Record dashboard := Dashboard {
  cards : list card;
  fig1 : list (str * ext Q);
  fig2 : list (str * float64);
  fig3 : trend;
  fig4 : list (str * Z);
  fig5 : option (list Scatter.point);
  detail : list detail_row
}.

(** What stops [main] short: [int()] of a number that is not finite, or
    a column that is not there. *)
Inductive failure :=
| IntOfNonFinite
| MissingColumn (column : string).

(** How a run of [main] ends. *)
Inductive page :=
| Stopped (messages : list message)
| Raised (messages : list message) (e : failure)
| NoData (m : metrics) (messages : list message)
| Shown (m : metrics) (d : dashboard) (messages : list message).

Definition no_data_warning : message :=
  Notice (Warning "No data available for the selected filters. Please adjust your filter criteria.").

(** [main]: from the file, the state of the widgets and the random
    generator to the page and the generator left behind. *)
Definition main `{DateParser} (file : option raw_frame) (s : session) (g : rng)
    : page * rng :=
  let (msgs, raw) := load_data file in
  if empty raw then (Stopped msgs, g)
  else
    match preprocess_data raw with
    | KeyError column => (Raised msgs (MissingColumn column), g)
    | Ok df =>
        match selection df s with
        | None => (Raised msgs IntOfNonFinite, g)
        | Some c =>
            let fdf := filtered_df c df in
            let m := key_metrics fdf in
            if empty fdf then (NoData m (msgs ++ [no_data_warning]), g)
            else
              let cheapest_platforms := identify_cheapest_platforms fdf in
              let f1 := create_price_per_platform_chart fdf in
              let f2 := create_price_distribution_chart fdf in
              let (f3, g') := create_price_trend_chart fdf g in
              let f4 := create_platform_market_share_chart fdf in
              let (warnings, f5) := create_rating_price_scatter fdf in
              let msgs' := msgs ++ map Notice warnings in
              if has_rating fdf
              then (Shown m
                      (Dashboard (cards_from 0 cheapest_platforms)
                                 f1 f2 f3 f4 f5 (detail_table fdf))
                      msgs', g')
              else (Raised msgs' (MissingColumn "rating"), g')
        end
    end.

(* ================================================================== *)
(** * Properties of the number model *)

Lemma pow10_pos k : 0 < pow10 k.
Proof. unfold pow10. apply Z.pow_pos_nonneg; lia. Qed.

Lemma pow10_S k : pow10 (S k) = 10 * pow10 k.
Proof.
  unfold pow10. rewrite Nat2Z.inj_succ, Z.pow_succ_r; lia.
Qed.

Lemma pow10_add a b : pow10 (a + b) = pow10 a * pow10 b.
Proof.
  unfold pow10. rewrite Nat2Z.inj_add, Z.pow_add_r; lia.
Qed.

(** ** Normal forms *)

Lemma norm_aux_eqv m k : dec_eqv (norm_aux m k) (Dec m k).
Proof.
  revert m. induction k as [|k IH]; intros m; simpl.
  - reflexivity.
  - destruct (m mod 10 =? 0) eqn:E.
    + apply Z.eqb_eq in E.
      specialize (IH (m / 10)). unfold dec_eqv in *. simpl in *.
      rewrite pow10_S.
      assert (Hm : m = 10 * (m / 10)) by (pose proof (Z.div_mod m 10); lia).
      rewrite Hm at 2. lia.
    + reflexivity.
Qed.

Lemma norm_aux_canonical m k : canonical (norm_aux m k).
Proof.
  revert m. induction k as [|k IH]; intros m; simpl.
  - now left.
  - destruct (m mod 10 =? 0) eqn:E.
    + apply IH.
    + right. simpl. now apply Z.eqb_neq in E.
Qed.


Lemma canonical_unique a b :
  canonical a -> canonical b -> dec_eqv a b -> a = b.
Proof.
  destruct a as [m1 k1], b as [m2 k2]. unfold canonical, dec_eqv. simpl.
  intros Ha Hb E.
  assert (Hlt : forall m m' k k', (k < k')%nat ->
             (k' = O \/ m' mod 10 <> 0) ->
             m * pow10 k' = m' * pow10 k -> False).
  { intros m m' k k' Hk Hc Heq.
    destruct Hc as [Hc|Hc]; [lia|]. apply Hc.
    replace k' with (S (k' - S k) + k)%nat in Heq by lia.
    rewrite pow10_add, pow10_S in Heq.
    pose proof (pow10_pos k) as Hp.
    assert (Hm : m' = 10 * (m * pow10 (k' - S k))) by nia.
    rewrite Hm, Z.mul_comm. apply Z_mod_mult. }
  destruct (Nat.lt_trichotomy k1 k2) as [H|[H|H]].
  - exfalso. apply (Hlt m1 m2 k1 k2); auto.
  - subst k2. pose proof (pow10_pos k1). f_equal. nia.
  - exfalso. apply (Hlt m2 m1 k2 k1); auto.
Qed.

Lemma dec_eqv_sym a b : dec_eqv a b -> dec_eqv b a.
Proof. unfold dec_eqv. lia. Qed.

Lemma dec_eqv_trans a b c : dec_eqv a b -> dec_eqv b c -> dec_eqv a c.
Proof.
  unfold dec_eqv. intros H1 H2.
  pose proof (pow10_pos (scale a)). pose proof (pow10_pos (scale b)).
  pose proof (pow10_pos (scale c)).
  apply (Z.mul_reg_r _ _ (pow10 (scale b))); [lia|].
  transitivity (mant a * pow10 (scale b) * pow10 (scale c)); [ring|].
  rewrite H1.
  transitivity (mant b * pow10 (scale c) * pow10 (scale a)); [ring|].
  rewrite H2. ring.
Qed.

Lemma norm_eqv d : dec_eqv (norm d) d.
Proof. destruct d. apply norm_aux_eqv. Qed.

Lemma norm_canonical d : canonical (norm d).
Proof. apply norm_aux_canonical. Qed.

Lemma norm_respects a b : dec_eqv a b -> norm a = norm b.
Proof.
  intros H. apply canonical_unique; try apply norm_canonical.
  eapply dec_eqv_trans; [apply norm_eqv|].
  eapply dec_eqv_trans; [apply H|]. apply dec_eqv_sym, norm_eqv.
Qed.

Lemma norm_idem d : norm (norm d) = norm d.
Proof. apply norm_respects, norm_eqv. Qed.


(** ** Digit strings *)


Lemma horner_cons a c ds : horner a (c :: ds) = horner (10 * a + digit_val c)%N ds.
Proof. reflexivity. Qed.

Lemma digit_val_chr n : (n < 10)%N -> digit_val (digit_chr n) = n.
Proof. unfold digit_val, digit_chr. lia. Qed.

Lemma is_digit_chr n : (n < 10)%N -> is_digit (digit_chr n) = true.
Proof.
  unfold is_digit, digit_chr. intros H.
  apply andb_true_intro. split; apply N.leb_le; lia.
Qed.

Lemma digits_fuel_value fuel : forall n acc,
  (n < 2 ^ N.of_nat fuel)%N ->
  horner 0 (digits_fuel fuel n acc) = horner n acc.
Proof.
  induction fuel as [|f IH]; intros n acc Hn.
  - simpl in *. assert (n = 0%N) by lia. now subst.
  - cbn [digits_fuel].
    assert (Hmod : (n mod 10 < 10)%N) by (apply N.mod_lt; lia).
    destruct (n <? 10)%N eqn:E.
    + apply N.ltb_lt in E. rewrite horner_cons, digit_val_chr by assumption.
      rewrite N.mod_small by assumption. reflexivity.
    + apply N.ltb_ge in E. rewrite IH.
      * rewrite horner_cons, digit_val_chr by assumption.
        f_equal. pose proof (N.div_mod n 10). lia.
      * rewrite Nat2N.inj_succ, N.pow_succ_r' in Hn.
        apply N.Div0.div_lt_upper_bound.
        pose proof (N.pow_nonzero 2 (N.of_nat f)). lia.
Qed.

Lemma digits_fuel_digits fuel : forall n acc,
  forallb is_digit acc = true ->
  forallb is_digit (digits_fuel fuel n acc) = true.
Proof.
  induction fuel as [|f IH]; intros n acc Hacc; cbn [digits_fuel]; [assumption|].
  assert (Hd : forallb is_digit (digit_chr (n mod 10) :: acc) = true).
  { cbn [forallb]. rewrite is_digit_chr, Hacc; [reflexivity|].
    apply N.mod_lt; lia. }
  destruct (n <? 10)%N; [assumption|]. now apply IH.
Qed.

Lemma digits_fuel_nonempty fuel : forall n acc,
  digits_fuel (S fuel) n acc <> [].
Proof.
  induction fuel as [|f IH]; intros n acc.
  - cbn. destruct (n <? 10)%N; discriminate.
  - change (digits_fuel (S (S f)) n acc)
      with (if (n <? 10)%N then digit_chr (n mod 10) :: acc
            else digits_fuel (S f) (n / 10) (digit_chr (n mod 10) :: acc)).
    destruct (n <? 10)%N; [discriminate|apply IH].
Qed.

Lemma size_nat_bound n : (n < 2 ^ N.of_nat (S (N.size_nat n)))%N.
Proof.
  destruct n as [|p]; [cbn; lia|].
  cbn [N.size_nat].
  rewrite Nat2N.inj_succ, N.pow_succ_r'.
  assert (H : (N.pos p < 2 ^ N.of_nat (Pos.size_nat p))%N).
  { induction p as [p IH|p IH|]; cbn [Pos.size_nat];
      rewrite ?Nat2N.inj_succ, ?N.pow_succ_r'; lia. }
  lia.
Qed.

Lemma N_of_digits_of_N n : N_of_digits (digits_of_N n) = n.
Proof.
  unfold N_of_digits, digits_of_N.
  rewrite digits_fuel_value by apply size_nat_bound. reflexivity.
Qed.

Lemma digits_of_N_digits n : forallb is_digit (digits_of_N n) = true.
Proof. apply digits_fuel_digits. reflexivity. Qed.

Lemma digits_of_N_nonempty n : digits_of_N n <> [].
Proof. apply digits_fuel_nonempty. Qed.



(** ** The parser on well-formed numerals *)

Lemma digit_range c : is_digit c = true -> (48 <= c <= 57)%N.
Proof.
  unfold is_digit. intros H. apply andb_prop in H as [H1 H2].
  apply N.leb_le in H1, H2. lia.
Qed.

Lemma digit_not_space c : is_digit c = true -> is_space c = false.
Proof.
  intros H. apply digit_range in H. unfold is_space.
  apply orb_false_intro.
  - apply N.eqb_neq. lia.
  - apply andb_false_intro2, N.leb_gt. lia.
Qed.

Lemma digit_neqb c a :
  is_digit c = true -> is_digit (ch a) = false -> N.eqb c (ch a) = false.
Proof.
  intros H Ha. apply N.eqb_neq. intros ->. congruence.
Qed.

Lemma digit_lower_neqb c :
  is_digit c = true -> N.eqb (lower c) (ch "e") = false.
Proof.
  intros H. apply digit_range in H. unfold lower.
  replace (N.leb 65 c) with false by (symmetry; apply N.leb_gt; lia).
  cbn [andb]. apply N.eqb_neq. change (ch "e") with 101%N. lia.
Qed.

Lemma skip_space_id s :
  match s with c :: _ => is_space c = false | [] => True end ->
  skip_space s = s.
Proof. destruct s as [|c r]; simpl; [reflexivity|]. now intros ->. Qed.

Lemma span_digits_app ds rest :
  forallb is_digit ds = true ->
  match rest with c :: _ => is_digit c = false | [] => True end ->
  span_digits (ds ++ rest) = (ds, rest).
Proof.
  intros Hds Hrest. induction ds as [|c ds IH]; simpl in *.
  - destruct rest as [|c r]; simpl; [reflexivity|]. now rewrite Hrest.
  - apply andb_prop in Hds as [Hc Hds]. rewrite Hc, IH by assumption.
    reflexivity.
Qed.

Lemma span_digits_all ds :
  forallb is_digit ds = true -> span_digits ds = (ds, []).
Proof.
  intros H. rewrite <- (app_nil_r ds) at 1. now apply span_digits_app.
Qed.

Lemma exp_str_head e :
  match exp_str e with c :: _ => is_digit c = false | [] => True end.
Proof. destruct e as [[eneg es]|]; simpl; auto. Qed.

Lemma take_exponent_exp_str e :
  well_exp e -> take_exponent (exp_str e) = Some (exp_val e, []).
Proof.
  destruct e as [[eneg es]|]; [|reflexivity].
  intros [Hne Hds]. cbn [exp_str exp_val]. unfold take_exponent.
  change (N.eqb (lower (ch "e")) (ch "e")) with true. cbn iota.
  assert (Hsign : take_sign ((if eneg then ch "-" else ch "+") :: es) = (eneg, es))
    by (destruct eneg; reflexivity).
  rewrite Hsign, span_digits_all by assumption.
  destruct es as [|c es']; [congruence|reflexivity].
Qed.

Lemma take_sign_sign_str neg ds rest :
  forallb is_digit ds = true -> ds <> [] ->
  take_sign (sign_str neg ++ ds ++ rest) = (neg, ds ++ rest).
Proof.
  intros Hds Hne. destruct neg; [reflexivity|].
  destruct ds as [|c ds']; [congruence|].
  cbn [sign_str app]. unfold take_sign. cbn [forallb] in Hds.
  apply andb_prop in Hds as [Hc _].
  rewrite !(digit_neqb c) by (assumption || reflexivity). reflexivity.
Qed.

Lemma skip_space_sign_str neg ds rest :
  forallb is_digit ds = true -> ds <> [] ->
  skip_space (sign_str neg ++ ds ++ rest) = sign_str neg ++ ds ++ rest.
Proof.
  intros Hds Hne. apply skip_space_id. destruct neg; [reflexivity|].
  destruct ds as [|c ds']; [congruence|].
  cbn [sign_str app]. cbn [forallb] in Hds.
  apply andb_prop in Hds as [Hc _]. now apply digit_not_space.
Qed.


(** A numeral without a decimal point. *)
Lemma xstrtod_integer neg ip e :
  forallb is_digit ip = true -> ip <> [] -> well_exp e ->
  xstrtod (sign_str neg ++ ip ++ exp_str e)
  = Some (scale10 (signed neg (N_of_digits ip)) 0 (exp_val e)).
Proof.
  intros Hip Hne He. unfold xstrtod.
  rewrite skip_space_sign_str, take_sign_sign_str by assumption.
  rewrite span_digits_app by (assumption || apply exp_str_head).
  assert (Hfrac : take_fraction (exp_str e) = ([], exp_str e)).
  { destruct e as [[eneg es]|]; reflexivity. }
  rewrite Hfrac, app_nil_r.
  destruct ip as [|c l] eqn:E; [congruence|]. rewrite <- E.
  rewrite take_exponent_exp_str by assumption. cbn [skip_space].
  destruct neg; reflexivity.
Qed.

(** ** Printing, then parsing *)









Lemma scale10_0 M frac : scale10 M frac 0 = Dec M frac.
Proof.
  unfold scale10. rewrite Z.sub_0_r.
  replace (0 <=? Z.of_nat frac) with true by (symmetry; apply Z.leb_le; lia).
  now rewrite Nat2Z.id.
Qed.








(** ** Printed numbers hold neither rupee sign nor comma *)

Lemma digits_plain ds : forallb is_digit ds = true -> forallb plain ds = true.
Proof.
  induction ds as [|c ds IH]; [reflexivity|].
  cbn [forallb]. intros H. apply andb_prop in H as [Hc Hds].
  rewrite IH by assumption. rewrite andb_true_r.
  apply digit_range in Hc. unfold plain.
  apply negb_true_iff, orb_false_intro; apply N.eqb_neq.
  - unfold rupee. lia.
  - change (ch ",") with 44%N. lia.
Qed.






(* ================================================================== *)
(** * The Preprocessor *)

Lemma filter_map_swap {A B} (p : B -> bool) (f : A -> B) l :
  filter p (map f l) = map f (filter (fun a => p (f a)) l).
Proof.
  induction l as [|a l IH]; [reflexivity|].
  cbn [map filter]. destruct (p (f a)); cbn [map]; now rewrite IH.
Qed.



(** The digits of [n], read as a numeral, denote [n]. *)
Lemma numeral_value_digits n :
  numeral_value (digits_of_N n) [] = Dec (Z.of_N n) 0.
Proof.
  unfold numeral_value. now rewrite app_nil_r, N_of_digits_of_N.
Qed.




Section Preprocessor.
Context {dp : DateParser}.

Lemma preprocess_data_spec (df : raw_frame) :
  has_rating df = true ->
  preprocess_data df
  = Ok (Frame true (has_date df)
          (map (clean_row (has_date df))
               (filter (fun r => negb (unparsable r)) (rows df)))).
Proof.
  intros Hr. unfold preprocess_data, empty.
  destruct (rows df) as [|r0 rs] eqn:E.
  - now rewrite Hr.
  - rewrite Hr. cbn [negb]. rewrite <- E. clear E. f_equal. f_equal.
    unfold dropna_price. rewrite map_map, filter_map_swap.
    destruct (has_date df); rewrite map_map; reflexivity.
Qed.

Lemma preprocess_data_empty (df : raw_frame) :
  rows df = [] ->
  preprocess_data df = Ok (Frame (has_rating df) (has_date df) []).
Proof. intros E. unfold preprocess_data, empty. now rewrite E. Qed.

Lemma preprocess_data_key_error (df : raw_frame) :
  rows df <> [] -> has_rating df = false ->
  preprocess_data df = KeyError "rating".
Proof.
  intros E Hr. unfold preprocess_data, empty.
  destruct (rows df); [congruence|]. now rewrite Hr.
Qed.

Lemma price_clean_row b r : price (clean_row b r) = clean_price (price r).
Proof. reflexivity. Qed.
End Preprocessor.

Example preprocess_mixed_frame :
  @preprocess_data iso_date mixed_frame = Ok mixed_table.
Proof. reflexivity. Qed.

Example preprocess_fractional_frame :
  @preprocess_data iso_date fractional_frame = Ok fractional_table.
Proof. reflexivity. Qed.

(* ================================================================== *)
(** * The Filter Engine *)

Lemma filter_all {A} (p : A -> bool) l :
  (forall a, In a l -> p a = true) -> filter p l = l.
Proof.
  induction l as [|a l IH]; intros H; [reflexivity|].
  cbn [filter]. rewrite (H a) by now left.
  f_equal. apply IH. intros b Hb. apply H. now right.
Qed.

Lemma filter_andb {A} (p q : A -> bool) l :
  filter q (filter p l) = filter (fun a => p a && q a) l.
Proof.
  induction l as [|a l IH]; [reflexivity|].
  cbn [filter]. destruct (p a); cbn [filter andb]; now rewrite IH.
Qed.

Lemma filter_sublist {A} (p : A -> bool) l : sublist (filter p l) l.
Proof.
  induction l as [|a l IH]; cbn [filter]; [constructor|].
  destruct (p a); [now apply sublist_keep|now apply sublist_skip].
Qed.

Lemma sublist_refl {A} (l : list A) : sublist l l.
Proof. induction l; [constructor|now apply sublist_keep]. Qed.

Lemma sublist_trans {A} (a b c : list A) :
  sublist a b -> sublist b c -> sublist a c.
Proof.
  intros Hab Hbc. revert a Hab.
  induction Hbc as [|x b c _ IH|x b c _ IH]; intros a Hab.
  - assumption.
  - apply sublist_skip. now apply IH.
  - inversion Hab; subst.
    + apply sublist_skip. now apply IH.
    + apply sublist_keep. now apply IH.
Qed.

Lemma sublist_In {A} (a b : list A) x : sublist a b -> In x a -> In x b.
Proof.
  induction 1 as [|y a b _ IH|y a b _ IH]; intros Hx.
  - assumption.
  - right. now apply IH.
  - destruct Hx as [->|Hx]; [now left|right; now apply IH].
Qed.

Lemma sublist_length {A} (a b : list A) :
  sublist a b -> (length a <= length b)%nat.
Proof. induction 1; simpl; lia. Qed.

Lemma brand_filter_spec c rs : brand_filter c rs = filter (brand_ok c) rs.
Proof.
  unfold brand_filter, brand_ok.
  destruct (str_in All (selected_brands c)); cbn [negb orb].
  - symmetry. now apply filter_all.
  - reflexivity.
Qed.

Lemma price_filter_spec c rs : price_filter c rs = filter (price_ok c) rs.
Proof. reflexivity. Qed.

Lemma platform_filter_spec c rs :
  platform_filter c rs = filter (platform_ok c) rs.
Proof.
  unfold platform_filter, platform_ok.
  destruct (str_in All (selected_platforms c)); cbn [negb orb].
  - symmetry. now apply filter_all.
  - reflexivity.
Qed.

Lemma city_filter_spec c rs : city_filter c rs = filter (city_ok c) rs.
Proof.
  unfold city_filter, city_ok.
  destruct (str_eqb (selected_city c) All); cbn [negb orb].
  - symmetry. now apply filter_all.
  - reflexivity.
Qed.

Lemma apply_filter_spec c d rs : apply_filter c d rs = filter (dim_ok c d) rs.
Proof.
  destruct d; cbn [apply_filter dim_ok].
  - apply brand_filter_spec.
  - apply price_filter_spec.
  - apply platform_filter_spec.
  - apply city_filter_spec.
Qed.

Lemma apply_in_order_spec c order : forall rs,
  apply_in_order c order rs
  = filter (fun r => forallb (fun d => dim_ok c d r) order) rs.
Proof.
  unfold apply_in_order.
  induction order as [|d order IH]; intros rs; cbn [fold_left forallb].
  - symmetry. now apply filter_all.
  - rewrite IH, apply_filter_spec. apply filter_andb.
Qed.

Lemma forallb_Permutation {A} (p : A -> bool) l l' :
  Permutation l l' -> forallb p l = forallb p l'.
Proof.
  induction 1; cbn [forallb]; try congruence.
  destruct (p x), (p y); reflexivity.
Qed.

Lemma filter_ext_eq {A} (p q : A -> bool) l :
  (forall a, p a = q a) -> filter p l = filter q l.
Proof. intros H. apply filter_ext. exact H. Qed.

Lemma filtered_df_in_order c df :
  rows (filtered_df c df) = apply_in_order c source_order (rows df).
Proof. reflexivity. Qed.

Lemma filtered_df_spec c df :
  rows (filtered_df c df)
  = filter (fun r => brand_ok c r && price_ok c r && platform_ok c r && city_ok c r)
           (rows df).
Proof.
  rewrite filtered_df_in_order, apply_in_order_spec.
  apply filter_ext_eq. intros r. cbn [source_order forallb dim_ok].
  now rewrite andb_true_r, !andb_assoc.
Qed.

Lemma price_ok_fin c r : price_ok c r = true -> is_fin (price r) = true.
Proof.
  unfold price_ok, f_leb, of_int. intros H. apply andb_prop in H as [H1 H2].
  destruct (price r); simpl in *; congruence.
Qed.

Lemma filtered_df_fin c df r :
  In r (rows (filtered_df c df)) -> is_fin (price r) = true.
Proof.
  rewrite filtered_df_spec. intros H. apply filter_In in H as [_ H].
  apply price_ok_fin with c.
  destruct (brand_ok c r), (price_ok c r); simpl in H; congruence.
Qed.

Lemma filtered_df_sublist c df : sublist (rows (filtered_df c df)) (rows df).
Proof. rewrite filtered_df_spec. apply filter_sublist. Qed.

(* ================================================================== *)
(** * Claims on the Preprocessor *)








(** C6, as the specification has it: every price kept is at least 0. *)
Lemma negative_price_is_kept :
  exists t r, @preprocess_data iso_date mixed_frame = Ok t
    /\ In r (rows t)
    /\ price r = Fin (Dec (-500) 0)
    /\ nonnegative (price r) = false.
Proof.
  exists mixed_table.
  exists (Row (lit "Asus") (lit "Vivobook") (lit "Amazon") (Fin (Dec (-500) 0))
              (lit "Indore") NaN None).
  repeat split. right. left. reflexivity.
Qed.

(** C6, as the code has it.  Every row [preprocess_data] keeps has a
    price that is a number (never nan), which may be below zero; the
    rows whose price is not a number are left out, and no filtered view
    of the table holds a row other than the kept ones, each with a
    finite price. *)
Theorem preprocess_keeps_numeric_prices
    (dp : DateParser) (df : raw_frame) (t : table) :
  preprocess_data df = Ok t ->
  rows t = map (clean_row (has_date df))
               (filter (fun r => negb (unparsable r)) (rows df))
  /\ (forall l, In l (rows t) -> isna (price l) = false)
  /\ (forall c l, In l (rows (filtered_df c t)) ->
        In l (rows t) /\ is_fin (price l) = true).
Proof.
  intros H.
  assert (Hrows : rows t = map (clean_row (has_date df))
                    (filter (fun r => negb (unparsable r)) (rows df))).
  { destruct (rows df) as [|r0 rs] eqn:E.
    - rewrite (preprocess_data_empty df E) in H. now inversion H.
    - destruct (has_rating df) eqn:Hr.
      + rewrite (preprocess_data_spec df Hr) in H. inversion H.
        cbn [rows]. now rewrite E.
      + rewrite preprocess_data_key_error in H by congruence. discriminate. }
  split; [exact Hrows|]. split.
  - intros l Hl. rewrite Hrows in Hl. apply in_map_iff in Hl as [r [<- Hr]].
    apply filter_In in Hr as [_ Hr]. rewrite price_clean_row.
    unfold unparsable in Hr. now apply negb_true_iff in Hr.
  - intros c l Hl. split.
    + apply (sublist_In _ _ _ (filtered_df_sublist c t) Hl).
    + now apply filtered_df_fin with c t.
Qed.

Lemma preprocess_keeps_numeric_prices_sample :
  rows mixed_table = map (@clean_row iso_date (has_date mixed_frame))
                         (filter (fun r => negb (unparsable r)) (rows mixed_frame))
  /\ (forall l, In l (rows mixed_table) -> isna (price l) = false)
  /\ (forall c l, In l (rows (filtered_df c mixed_table)) ->
        In l (rows mixed_table) /\ is_fin (price l) = true).
Proof.
  apply (preprocess_keeps_numeric_prices iso_date mixed_frame mixed_table).
  reflexivity.
Defined.



(* ================================================================== *)
(** * Order on prices *)

Lemma dec_leb_refl a : dec_leb a a = true.
Proof. unfold dec_leb. apply Z.leb_refl. Qed.

Lemma dec_leb_total a b : dec_leb a b = true \/ dec_leb b a = true.
Proof. unfold dec_leb. rewrite !Z.leb_le. lia. Qed.

Lemma dec_leb_trans a b c :
  dec_leb a b = true -> dec_leb b c = true -> dec_leb a c = true.
Proof.
  unfold dec_leb. rewrite !Z.leb_le. intros H1 H2.
  pose proof (pow10_pos (scale a)) as Ha.
  pose proof (pow10_pos (scale b)) as Hb.
  pose proof (pow10_pos (scale c)) as Hc.
  apply (Z.mul_le_mono_pos_r _ _ (pow10 (scale b))); [assumption|].
  transitivity (mant b * pow10 (scale a) * pow10 (scale c)).
  - replace (mant a * pow10 (scale c) * pow10 (scale b))
      with (mant a * pow10 (scale b) * pow10 (scale c)) by ring.
    apply Z.mul_le_mono_nonneg_r; lia.
  - replace (mant b * pow10 (scale a) * pow10 (scale c))
      with (mant b * pow10 (scale c) * pow10 (scale a)) by ring.
    replace (mant c * pow10 (scale a) * pow10 (scale b))
      with (mant c * pow10 (scale b) * pow10 (scale a)) by ring.
    apply Z.mul_le_mono_nonneg_r; lia.
Qed.

Lemma f_leb_refl x : is_fin x = true -> f_leb x x = true.
Proof. destruct x; try discriminate. intros _. apply dec_leb_refl. Qed.

Lemma f_leb_trans x y z :
  f_leb x y = true -> f_leb y z = true -> f_leb x z = true.
Proof.
  unfold f_leb. destruct x, y, z; cbn [ext_leb]; try congruence.
  apply dec_leb_trans.
Qed.

Lemma f_leb_total x y :
  isna x = false -> isna y = false -> f_leb x y = true \/ f_leb y x = true.
Proof.
  unfold f_leb. destruct x, y; cbn [ext_leb isna]; try discriminate; auto.
  intros _ _. apply dec_leb_total.
Qed.

Lemma f_min_spec x y :
  isna x = false -> isna y = false ->
  (f_min x y = x \/ f_min x y = y)
  /\ f_leb (f_min x y) x = true /\ f_leb (f_min x y) y = true.
Proof.
  intros Hx Hy. unfold f_min.
  destruct (f_leb x y) eqn:E.
  - destruct x, y; try discriminate; repeat split; auto;
      try apply dec_leb_refl; try exact E.
  - destruct (f_leb_total x y Hx Hy) as [H|H]; [congruence|].
    destruct x, y; try discriminate; repeat split; auto;
      try apply dec_leb_refl; try exact H.
Qed.

Lemma f_max_spec x y :
  isna x = false -> isna y = false ->
  (f_max x y = x \/ f_max x y = y)
  /\ f_leb x (f_max x y) = true /\ f_leb y (f_max x y) = true.
Proof.
  intros Hx Hy. unfold f_max.
  destruct (f_leb x y) eqn:E.
  - destruct x, y; try discriminate; repeat split; auto;
      try apply dec_leb_refl; try exact E.
  - destruct (f_leb_total x y Hx Hy) as [H|H]; [congruence|].
    destruct x, y; try discriminate; repeat split; auto;
      try apply dec_leb_refl; try exact H.
Qed.

(** The fold of [series_min] from a first value on. *)
Lemma fold_min_spec xs : forall m,
  isna m = false -> (forall x, In x xs -> isna x = false) ->
  let r := fold_left f_min xs m in
  (r = m \/ In r xs) /\ f_leb r m = true
  /\ (forall x, In x xs -> f_leb r x = true).
Proof.
  induction xs as [|y xs IH]; intros m Hm Hxs; cbn [fold_left].
  - split; [now left|]. split; [|intros x []].
    destruct m; try discriminate; try reflexivity. apply dec_leb_refl.
  - assert (Hy : isna y = false) by (apply Hxs; now left).
    destruct (f_min_spec m y Hm Hy) as (Hsel & Hle1 & Hle2).
    assert (Hm' : isna (f_min m y) = false)
      by (destruct Hsel as [->| ->]; assumption).
    destruct (IH (f_min m y) Hm') as (Hin & Hle & Hall).
    { intros x Hx. apply Hxs. now right. }
    repeat split.
    + destruct Hin as [Hr|Hr].
      * rewrite Hr. destruct Hsel as [->| ->]; [now left|right; now left].
      * right. now right.
    + eapply f_leb_trans; eassumption.
    + intros x [<-|Hx]; [eapply f_leb_trans; eassumption|now apply Hall].
Qed.

Lemma fold_max_spec xs : forall m,
  isna m = false -> (forall x, In x xs -> isna x = false) ->
  let r := fold_left f_max xs m in
  (r = m \/ In r xs) /\ f_leb m r = true
  /\ (forall x, In x xs -> f_leb x r = true).
Proof.
  induction xs as [|y xs IH]; intros m Hm Hxs; cbn [fold_left].
  - split; [now left|]. split; [|intros x []].
    destruct m; try discriminate; try reflexivity. apply dec_leb_refl.
  - assert (Hy : isna y = false) by (apply Hxs; now left).
    destruct (f_max_spec m y Hm Hy) as (Hsel & Hle1 & Hle2).
    assert (Hm' : isna (f_max m y) = false)
      by (destruct Hsel as [->| ->]; assumption).
    destruct (IH (f_max m y) Hm') as (Hin & Hle & Hall).
    { intros x Hx. apply Hxs. now right. }
    repeat split.
    + destruct Hin as [Hr|Hr].
      * rewrite Hr. destruct Hsel as [->| ->]; [now left|right; now left].
      * right. now right.
    + eapply f_leb_trans; eassumption.
    + intros x [<-|Hx]; [eapply f_leb_trans; eassumption|now apply Hall].
Qed.

(** The least of a column without nan is one of its entries, and below
    every entry. *)
Lemma series_min_spec xs :
  xs <> [] -> (forall x, In x xs -> isna x = false) ->
  In (series_min xs) xs /\ forall x, In x xs -> f_leb (series_min xs) x = true.
Proof.
  destruct xs as [|y xs]; [congruence|]. intros _ Hxs.
  unfold series_min. cbn [fold_left f_min].
  assert (Hy : isna y = false) by (apply Hxs; now left).
  destruct (fold_min_spec xs y Hy) as (Hin & Hle & Hall).
  { intros x Hx. apply Hxs. now right. }
  split.
  - destruct Hin as [->|Hin]; [now left|now right].
  - intros x [<-|Hx]; [assumption|now apply Hall].
Qed.

Lemma series_max_spec xs :
  xs <> [] -> (forall x, In x xs -> isna x = false) ->
  In (series_max xs) xs /\ forall x, In x xs -> f_leb x (series_max xs) = true.
Proof.
  destruct xs as [|y xs]; [congruence|]. intros _ Hxs.
  unfold series_max. cbn [fold_left f_max].
  assert (Hy : isna y = false) by (apply Hxs; now left).
  destruct (fold_max_spec xs y Hy) as (Hin & Hle & Hall).
  { intros x Hx. apply Hxs. now right. }
  split.
  - destruct Hin as [->|Hin]; [now left|now right].
  - intros x [<-|Hx]; [assumption|now apply Hall].
Qed.

(* ================================================================== *)
(** * Claims on the Filter Engine *)


Lemma select_all_ok range r :
  brand_ok (select_all range) r = true
  /\ platform_ok (select_all range) r = true
  /\ city_ok (select_all range) r = true.
Proof. repeat split; reflexivity. Qed.

Lemma py_int_of_int z : py_int (of_int z) = Some z.
Proof. cbn. now rewrite Z.quot_1_r. Qed.

(** The slider's initial value keeps every row of a table whose prices
    are whole numbers of rupees. *)
Lemma full_range_keeps_whole_prices (t : table) (range : Z * Z) :
  (forall l, In l (rows t) -> exists z, price l = of_int z) ->
  default_price_range t = Some range ->
  rows (filtered_df (select_all range) t) = rows t.
Proof.
  intros Hwhole Hrange. rewrite filtered_df_spec. apply filter_all.
  intros l Hl. destruct (select_all_ok range l) as (-> & -> & ->).
  rewrite !andb_true_r. cbn [andb].
  set (prices := map price (rows t)) in *.
  assert (Hna : forall x, In x prices -> isna x = false).
  { intros x Hx. apply in_map_iff in Hx as [l' [<- Hl']].
    destruct (Hwhole l' Hl') as [z ->]. reflexivity. }
  assert (Hne : prices <> []).
  { intros E. apply (in_map price) in Hl. fold prices in Hl.
    rewrite E in Hl. destruct Hl. }
  destruct (series_min_spec prices Hne Hna) as [Hmin_in Hmin].
  destruct (series_max_spec prices Hne Hna) as [Hmax_in Hmax].
  assert (Hwhole' : forall x, In x prices -> exists z, x = of_int z).
  { intros x Hx. apply in_map_iff in Hx as [l' [<- Hl']]. now apply Hwhole. }
  destruct (Hwhole' _ Hmin_in) as [lo Hlo].
  destruct (Hwhole' _ Hmax_in) as [hi Hhi].
  unfold default_price_range in Hrange. fold prices in Hrange.
  rewrite Hlo, Hhi, !py_int_of_int in Hrange. injection Hrange as <-.
  unfold price_ok. cbn [select_all price_range fst snd].
  rewrite <- Hlo, <- Hhi.
  apply andb_true_intro. split; [apply Hmin|apply Hmax]; now apply in_map.
Qed.

(** C4, on a table with a price that is not a whole number.  The
    slider's bounds are the least and the greatest price cut down to
    integers, so its initial value (1000, 1500) leaves out the row at
    1500.5: the filters on "All" over the whole range return one row of
    the two. *)
Theorem full_range_drops_fractional_maximum :
  @preprocess_data iso_date fractional_frame = Ok fractional_table
  /\ default_price_range fractional_table = Some (1000, 1500)
  /\ rows (filtered_df (select_all (1000, 1500)) fractional_table)
     = [ Row (lit "HP") (lit "Pavilion") (lit "Amazon") (Fin (Dec 1000 0))
             (lit "Bhopal") NaN None ]
  /\ length (rows (filtered_df (select_all (1000, 1500)) fractional_table)) = 1%nat
  /\ length (rows fractional_table) = 2%nat.
Proof. repeat split. Qed.

(** C5.  A row passes the filters exactly when it passes each of the
    four, and the four filters applied one after another, in whatever
    order, give the table that [main] computes. *)
Theorem filters_compose_in_any_order
    (c : criteria) (df : table) (order : list dimension) :
  Permutation order source_order ->
  apply_in_order c order (rows df) = rows (filtered_df c df)
  /\ rows (filtered_df c df)
     = filter (fun r => brand_ok c r && price_ok c r
                        && platform_ok c r && city_ok c r) (rows df)
  /\ (forall r, In r (rows (filtered_df c df)) <->
        In r (rows df) /\ brand_ok c r = true /\ price_ok c r = true
        /\ platform_ok c r = true /\ city_ok c r = true).
Proof.
  intros Hperm. split; [|split].
  - rewrite filtered_df_in_order, !apply_in_order_spec.
    apply filter_ext_eq. intros r. now apply forallb_Permutation.
  - apply filtered_df_spec.
  - intros r. rewrite filtered_df_spec, filter_In, !andb_true_iff. tauto.
Qed.

Lemma filters_compose_in_any_order_sample :
  let c := Criteria [lit "HP"] (40000, 50000) [All] (lit "Bhopal") in
  apply_in_order c [ByCity; ByPlatform; ByPrice; ByBrand] (rows abc_table)
  = rows (filtered_df c abc_table)
  /\ rows (filtered_df c abc_table)
     = filter (fun r => brand_ok c r && price_ok c r
                        && platform_ok c r && city_ok c r) (rows abc_table)
  /\ (forall r, In r (rows (filtered_df c abc_table)) <->
        In r (rows abc_table) /\ brand_ok c r = true /\ price_ok c r = true
        /\ platform_ok c r = true /\ city_ok c r = true).
Proof.
  apply (filters_compose_in_any_order
           (Criteria [lit "HP"] (40000, 50000) [All] (lit "Bhopal")) abc_table
           [ByCity; ByPlatform; ByPrice; ByBrand]).
  apply (Permutation_rev [ByCity; ByPlatform; ByPrice; ByBrand]).
Defined.

(** C10.  The filters only take rows away: the rows of the output are
    rows of the input, unchanged and in the order of the input, and the
    columns are those of the input. *)
Theorem filters_only_remove_rows (c : criteria) (df : table) :
  sublist (rows (filtered_df c df)) (rows df)
  /\ (forall r, In r (rows (filtered_df c df)) -> In r (rows df))
  /\ (length (rows (filtered_df c df)) <= length (rows df))%nat
  /\ has_rating (filtered_df c df) = has_rating df
  /\ has_date (filtered_df c df) = has_date df.
Proof.
  pose proof (filtered_df_sublist c df) as H.
  split; [exact H|]. split; [|split].
  - intros r. now apply sublist_In.
  - now apply sublist_length.
  - split; reflexivity.
Qed.

(* ================================================================== *)
(** * Strings as grouping keys *)





(* ================================================================== *)
(** * [groupby] *)

Section GroupByFacts.
Context {K R : Type} (k_eqb k_leb : K -> K -> bool) (key : R -> option K).
Hypothesis k_eqb_eq : forall a b, k_eqb a b = true <-> a = b.
Hypothesis k_leb_total : forall a b, k_leb a b = true \/ k_leb b a = true.
Hypothesis k_leb_antisym :
  forall a b, k_leb a b = true -> k_leb b a = true -> a = b.
Hypothesis k_leb_trans :
  forall a b c, k_leb a b = true -> k_leb b c = true -> k_leb a c = true.

Local Abbreviation k_lt := (strictly_below k_leb).

Lemma k_lt_trans a b c : k_lt a b -> k_lt b c -> k_lt a c.
Proof.
  intros [H1 N1] [H2 N2]. split; [now apply k_leb_trans with b|].
  intros ->. apply N1. now apply k_leb_antisym.
Qed.

Lemma insert_key_In k ks x :
  In x (insert_key k_eqb k_leb k ks) <-> x = k \/ In x ks.
Proof.
  induction ks as [|y ks IH]; cbn [insert_key].
  - cbn. intuition.
  - destruct (k_eqb k y) eqn:E.
    + apply k_eqb_eq in E. subst y. cbn. intuition.
    + destruct (k_leb k y); cbn [In]; [intuition|].
      rewrite IH. intuition.
Qed.

Lemma insert_key_HdRel x k ks :
  HdRel k_lt x ks -> k_lt x k -> HdRel k_lt x (insert_key k_eqb k_leb k ks).
Proof.
  intros Hhd Hxk. destruct ks as [|y ks]; cbn [insert_key].
  - now constructor.
  - destruct (k_eqb k y); [assumption|].
    destruct (k_leb k y); constructor; [assumption|].
    now inversion Hhd.
Qed.

Lemma insert_key_Sorted k ks :
  Sorted k_lt ks -> Sorted k_lt (insert_key k_eqb k_leb k ks).
Proof.
  induction ks as [|y ks IH]; intros Hs; cbn [insert_key].
  - repeat constructor.
  - destruct (k_eqb k y) eqn:E; [assumption|].
    assert (Hne : k <> y).
    { intros ->. assert (k_eqb y y = true) by now apply k_eqb_eq. congruence. }
    destruct (k_leb k y) eqn:L.
    + constructor; [assumption|]. constructor. now split.
    + inversion Hs as [|? ? Hs' Hhd]; subst.
      constructor; [now apply IH|].
      apply insert_key_HdRel; [assumption|]. split.
      * destruct (k_leb_total k y); congruence.
      * congruence.
Qed.

Lemma group_keys_Sorted rs : Sorted k_lt (group_keys k_eqb k_leb key rs).
Proof.
  induction rs as [|r rs IH]; cbn [group_keys]; [constructor|].
  destruct (key r); [now apply insert_key_Sorted|assumption].
Qed.

Lemma group_keys_In rs k :
  In k (group_keys k_eqb k_leb key rs) <-> exists r, In r rs /\ key r = Some k.
Proof.
  induction rs as [|r rs IH]; cbn [group_keys].
  - split; [intros []|intros [r [[] _]]].
  - destruct (key r) as [k'|] eqn:E.
    + rewrite insert_key_In, IH. split.
      * intros [->|[r' [Hr' Hk]]]; [exists r|exists r']; cbn; auto.
      * intros [r' [[<-|Hr'] Hk]]; [left; congruence|right; eauto].
    + rewrite IH. split.
      * intros [r' [Hr' Hk]]. exists r'. cbn. auto.
      * intros [r' [[<-|Hr'] Hk]]; [congruence|eauto].
Qed.





Lemma has_key_eq k r : has_key k_eqb key k r = true <-> key r = Some k.
Proof.
  unfold has_key. destruct (key r) as [k'|].
  - rewrite k_eqb_eq. split; congruence.
  - split; discriminate.
Qed.
End GroupByFacts.

(* ================================================================== *)
(** * [sort_values] *)

Section SortFacts.
Context {A : Type} (leb : A -> A -> bool).
Hypothesis leb_total : forall a b, leb a b = true \/ leb b a = true.
Hypothesis leb_trans :
  forall a b c, leb a b = true -> leb b c = true -> leb a c = true.

Local Abbreviation le_of := (le_of leb).

Lemma insert_sorted_Permutation a l :
  Permutation (insert_sorted leb a l) (a :: l).
Proof.
  induction l as [|y l IH]; cbn [insert_sorted]; [reflexivity|].
  destruct (leb a y); [reflexivity|].
  rewrite IH. apply perm_swap.
Qed.

Lemma sort_values_Permutation l : Permutation (sort_values leb l) l.
Proof.
  induction l as [|a l IH]; cbn [sort_values]; [reflexivity|].
  rewrite insert_sorted_Permutation. now constructor.
Qed.

Lemma insert_sorted_HdRel x a l :
  HdRel le_of x l -> le_of x a -> HdRel le_of x (insert_sorted leb a l).
Proof.
  intros Hhd Hxa. destruct l as [|y l]; cbn [insert_sorted].
  - now constructor.
  - destruct (leb a y); constructor; [assumption|]. now inversion Hhd.
Qed.

Lemma insert_sorted_Sorted a l :
  Sorted le_of l -> Sorted le_of (insert_sorted leb a l).
Proof.
  induction l as [|y l IH]; intros Hs; cbn [insert_sorted].
  - repeat constructor.
  - destruct (leb a y) eqn:E.
    + constructor; [assumption|]. now constructor.
    + inversion Hs as [|? ? Hs' Hhd]; subst.
      constructor; [now apply IH|].
      apply insert_sorted_HdRel; [assumption|].
      unfold le_of. destruct (leb_total a y); congruence.
Qed.

Lemma sort_values_Sorted l : StronglySorted le_of (sort_values leb l).
Proof.
  apply Sorted_StronglySorted.
  - intros a b c. apply leb_trans.
  - induction l as [|a l IH]; cbn [sort_values]; [constructor|].
    now apply insert_sorted_Sorted.
Qed.
End SortFacts.

(* ================================================================== *)
(** * Means and rounding *)

Lemma pos_pow10 k : Z.pos (Z.to_pos (pow10 k)) = pow10 k.
Proof. apply Z2Pos.id, pow10_pos. Qed.






Lemma notna_fin xs :
  (forall x, In x xs -> is_fin x = true) -> notna xs = xs.
Proof.
  intros H. apply filter_all. intros x Hx.
  specialize (H x Hx). now destruct x.
Qed.

Lemma fold_ext_add_fin xs : forall a,
  (forall x, In x xs -> is_fin x = true) ->
  exists q, fold_left ext_add (map q_of xs) (Fin a) = Fin q
            /\ (q == a + sum_Q xs)%Q.
Proof.
  induction xs as [|x xs IH]; intros a Hfin; cbn [map fold_left sum_Q fold_right].
  - exists a. split; [reflexivity|lra].
  - assert (Hx : is_fin x = true) by (apply Hfin; now left).
    destruct x as [d| | |]; try discriminate.
    cbn [q_of ext_add].
    destruct (IH (a + dec_Q d)%Q) as [q [Hq Eq]].
    { intros y Hy. apply Hfin. now right. }
    exists q. split; [exact Hq|].
    rewrite Eq. fold (sum_Q xs). lra.
Qed.

Lemma agg_count_fin xs :
  (forall x, In x xs -> is_fin x = true) ->
  agg_count xs = Z.of_nat (length xs).
Proof. intros H. unfold agg_count. now rewrite notna_fin. Qed.

Lemma agg_mean_fin xs :
  xs <> [] -> (forall x, In x xs -> is_fin x = true) ->
  exists q, agg_mean xs = Fin q
            /\ (q * inject_Z (Z.of_nat (length xs)) == sum_Q xs)%Q.
Proof.
  intros Hne Hfin. unfold agg_mean.
  rewrite agg_count_fin, notna_fin by assumption.
  destruct (fold_ext_add_fin xs 0%Q Hfin) as [q [-> Eq]].
  cbn [ext_div].
  assert (Hlen : Z.of_nat (length xs) <> 0)
    by (destruct xs; [congruence|cbn [length]; lia]).
  apply Z.eqb_neq in Hlen as Hb. rewrite Hb.
  eexists. split; [reflexivity|].
  rewrite Eq. field.
  intros H. apply Hlen. unfold Qeq in H. cbn in H. lia.
Qed.

Lemma agg_min_fin xs :
  xs <> [] -> (forall x, In x xs -> is_fin x = true) ->
  exists m, agg_min xs = Fin m /\ In (Fin m) xs
            /\ forall x, In x xs -> f_leb (Fin m) x = true.
Proof.
  intros Hne Hfin. unfold agg_min.
  assert (Hna : forall x, In x xs -> isna x = false).
  { intros x Hx. specialize (Hfin x Hx). now destruct x. }
  destruct (series_min_spec xs Hne Hna) as [Hin Hall].
  pose proof (Hfin _ Hin) as Hf.
  destruct (series_min xs) as [m| | |] eqn:E; try discriminate.
  exists m. auto.
Qed.

(* ================================================================== *)
(** * Claims on the Aggregator *)

Lemma na_last_leb_total x y : na_last_leb x y = true \/ na_last_leb y x = true.
Proof.
  destruct x as [a| | |], y as [b| | |]; cbn; auto. apply dec_leb_total.
Qed.

Lemma na_last_leb_trans x y z :
  na_last_leb x y = true -> na_last_leb y z = true -> na_last_leb x z = true.
Proof.
  destruct x as [a| | |], y as [b| | |], z as [c| | |]; cbn; try congruence.
  apply dec_leb_trans.
Qed.



Lemma StronglySorted_impl_in {A} (R R' : A -> A -> Prop) l :
  StronglySorted R l ->
  (forall a b, In a l -> In b l -> R a b -> R' a b) ->
  StronglySorted R' l.
Proof.
  induction 1 as [|a l Hs IH Hall]; intros Himp; constructor.
  - apply IH. intros x y Hx Hy. apply Himp; now right.
  - rewrite Forall_forall in *. intros x Hx.
    apply Himp; [now left|now right|now apply Hall].
Qed.







(* ================================================================== *)
(** * Claims on the view builders *)



Lemma date_range_2024 :
  date_range_M (Date 2024 1 1) (Date 2024 12 31) = month_ends_2024.
Proof. reflexivity. Qed.

Lemma randint_spec low high n g :
  low < high ->
  length (fst (randint low high n g)) = n
  /\ forall v, In v (fst (randint low high n g)) -> low <= v < high.
Proof.
  intros H. unfold randint. cbn [fst]. split.
  - now rewrite length_map, length_seq.
  - intros v Hv. apply in_map_iff in Hv as [i [<- _]].
    pose proof (Z.mod_pos_bound (g i) (high - low)). lia.
Qed.

(** C9, as the specification has it: two calls in a row give the same
    values.  With a generator that counts from 0 the first call yields
    40000, 40001, ... and the second 40012, 40013, ... *)
Lemma sample_series_differs_between_calls :
  exists v1 v2 g1 g2,
    create_price_trend_chart abc_table counting
    = (SampleData (combine month_ends_2024 v1), g1)
    /\ create_price_trend_chart abc_table g1
       = (SampleData (combine month_ends_2024 v2), g2)
    /\ hd 0 v1 = 40000 /\ hd 0 v2 = 40012
    /\ forallb (fun p => fst p <? snd p) (combine v1 v2) = true.
Proof.
  do 4 eexists. split; [reflexivity|]. split; [reflexivity|].
  repeat split.
Qed.

(** C9, as the code has it.  Without a date (no date column, or no row
    with a date) [create_price_trend_chart] returns a sample series
    rather than failing: the twelve month ends of 2024, each with a
    number from 40000 up to, but not reaching, 80000, drawn from the
    global generator.  The next call has the same dates, and values of
    its own, drawn from where the first call left the generator. *)
Theorem sample_series_has_fixed_dates (df : table) (g : rng) :
  has_date df = false \/ (forall r, In r (rows df) -> date r = None) ->
  exists v1 v2 g1 g2,
    create_price_trend_chart df g = (SampleData (combine month_ends_2024 v1), g1)
    /\ create_price_trend_chart df g1 = (SampleData (combine month_ends_2024 v2), g2)
    /\ length v1 = 12%nat /\ length v2 = 12%nat
    /\ (forall v, In v v1 \/ In v v2 -> 40000 <= v < 80000)
    /\ v1 = map (fun i => 40000 + g i mod 40000) (seq 0 12)
    /\ v2 = map (fun i => 40000 + g (12 + i)%nat mod 40000) (seq 0 12).
Proof.
  intros Hno. unfold create_price_trend_chart.
  match goal with
  | |- context [negb (has_date df) || forallb ?f (rows df)] =>
      assert (Hcond : negb (has_date df) || forallb f (rows df) = true)
  end.
  { destruct Hno as [->|Hall]; [reflexivity|].
    apply orb_true_iff. right. apply forallb_forall.
    intros r Hr. now rewrite (Hall r Hr). }
  rewrite Hcond, date_range_2024.
  cbn [randint length month_ends_2024].
  do 4 eexists. split; [reflexivity|]. split; [reflexivity|].
  split; [reflexivity|]. split; [reflexivity|]. split; [|split; reflexivity].
  intros v [Hv|Hv]; apply in_map_iff in Hv as [i [<- _]].
  - pose proof (Z.mod_pos_bound (g i) (80000 - 40000)). lia.
  - cbn beta. pose proof (Z.mod_pos_bound (g (12 + i)%nat) (80000 - 40000)). lia.
Qed.

Lemma sample_series_has_fixed_dates_sample :
  exists v1 v2 g1 g2,
    create_price_trend_chart abc_table counting
    = (SampleData (combine month_ends_2024 v1), g1)
    /\ create_price_trend_chart abc_table g1
       = (SampleData (combine month_ends_2024 v2), g2)
    /\ length v1 = 12%nat /\ length v2 = 12%nat
    /\ (forall v, In v v1 \/ In v v2 -> 40000 <= v < 80000)
    /\ v1 = map (fun i => 40000 + counting i mod 40000) (seq 0 12)
    /\ v2 = map (fun i => 40000 + counting (12 + i)%nat mod 40000) (seq 0 12).
Proof.
  apply (sample_series_has_fixed_dates abc_table counting).
  left. reflexivity.
Defined.

(* ================================================================== *)
(** * The number model on examples *)

Example repr_price : str_of_float (Fin (Dec 123456 0)) = lit "123456.0".
Proof. reflexivity. Qed.
Example repr_frac : str_of_float (Fin (Dec 150050 2)) = lit "1500.5".
Proof. reflexivity. Qed.
Example repr_small : str_of_float (Fin (Dec (-15) 8)) = lit "-1.5e-07".
Proof. reflexivity. Qed.
Example repr_big : str_of_float (Fin (Dec 10000000000000000 0)) = lit "1e+16".
Proof. reflexivity. Qed.
Example repr_16 : str_of_float (Fin (Dec 1234567890123456 0)) = lit "1234567890123456.0".
Proof. reflexivity. Qed.
Example repr_milli : str_of_float (Fin (Dec 1 4)) = lit "0.0001".
Proof. reflexivity. Qed.
Example repr_zero : str_of_float (Fin (Dec 0 3)) = lit "0.0".
Proof. reflexivity. Qed.
Example parse_plain : to_numeric_str (lit " 1500.50 ") = Fin (Dec 15005 1).
Proof. reflexivity. Qed.
Example parse_exp : to_numeric_str (lit "1.5E-7") = Fin (Dec 15 8).
Proof. reflexivity. Qed.
Example parse_exp_pos : to_numeric_str (lit "12e3") = Fin (Dec 12000 0).
Proof. reflexivity. Qed.
Example parse_neg : to_numeric_str (lit "-500") = Fin (Dec (-500) 0).
Proof. reflexivity. Qed.
Example parse_inf : to_numeric_str (lit "-Infinity") = NInf.
Proof. reflexivity. Qed.
Example parse_bad : to_numeric_str (lit "12 3") = NaN.
Proof. reflexivity. Qed.
Example parse_dot : to_numeric_str (lit ".") = NaN.
Proof. reflexivity. Qed.
Example parse_e : to_numeric_str (lit "1e") = NaN.
Proof. reflexivity. Qed.

(* ================================================================== *)
(** * More on the Preprocessor *)

(** [preprocess_data] raises [KeyError] for [rating] exactly on a frame
    that has rows and no rating column; a frame without rows comes back
    as it is, and a frame with a rating column comes back with the
    columns it had. *)
Theorem preprocess_fails_only_without_rating (dp : DateParser) (df : raw_frame) :
  (preprocess_data df = KeyError "rating"
   <-> rows df <> [] /\ has_rating df = false)
  /\ (rows df = [] ->
      preprocess_data df = Ok (Frame (has_rating df) (has_date df) []))
  /\ (has_rating df = true ->
      exists t, preprocess_data df = Ok t
                /\ has_rating t = true /\ has_date t = has_date df).
Proof.
  split; [|split].
  - split.
    + intros H. destruct (rows df) as [|r rs] eqn:E.
      * rewrite preprocess_data_empty in H by assumption. discriminate.
      * split; [discriminate|].
        destruct (has_rating df) eqn:Hr; [|reflexivity].
        rewrite preprocess_data_spec in H by assumption. discriminate.
    + intros [Hne Hr]. now apply preprocess_data_key_error.
  - apply preprocess_data_empty.
  - intros Hr. eexists. split; [now apply preprocess_data_spec|].
    split; reflexivity.
Qed.


(* ================================================================== *)
(** * More on the Filter Engine *)

Lemma str_in_nil x : str_in x [] = false.
Proof. reflexivity. Qed.

Lemma dec_leb_of_Z a b : dec_leb (dec_of_Z a) (dec_of_Z b) = (a <=? b).
Proof.
  unfold dec_leb, dec_of_Z. cbn [mant scale]. change (pow10 0) with 1.
  now rewrite !Z.mul_1_r.
Qed.

Lemma filtered_df_rows_filter c df :
  filtered_df c df
  = Frame (has_rating df) (has_date df)
          (filter (fun r => brand_ok c r && price_ok c r
                            && platform_ok c r && city_ok c r) (rows df)).
Proof.
  pose proof (filtered_df_spec c df) as H.
  unfold filtered_df in *. cbn [rows] in H. now rewrite H.
Qed.

(** Filtering twice by the same criteria is filtering once, and
    filtering by two sets of criteria, one after the other, gives the
    same table in either order. *)
Theorem filtered_df_idempotent_and_commutes (c1 c2 : criteria) (df : table) :
  filtered_df c1 (filtered_df c1 df) = filtered_df c1 df
  /\ filtered_df c1 (filtered_df c2 df) = filtered_df c2 (filtered_df c1 df).
Proof.
  split.
  - rewrite !filtered_df_rows_filter. cbn [rows has_rating has_date].
    f_equal. rewrite filter_andb. apply filter_ext_eq.
    intros r. apply andb_diag.
  - rewrite !filtered_df_rows_filter. cbn [rows has_rating has_date].
    f_equal. rewrite !filter_andb. apply filter_ext_eq.
    intros r. apply andb_comm.
Qed.

(** Nothing passes the filters when no brand is selected, when no
    platform is selected, or when the price interval has its lower end
    above its upper end. *)
Theorem empty_selection_shows_nothing (c : criteria) (df : table) :
  selected_brands c = [] \/ selected_platforms c = []
  \/ snd (price_range c) < fst (price_range c) ->
  rows (filtered_df c df) = [].
Proof.
  intros H. rewrite filtered_df_spec.
  assert (Hnone : forall r, brand_ok c r && price_ok c r
                            && platform_ok c r && city_ok c r = false).
  { intros r. destruct H as [H|[H|H]].
    - unfold brand_ok. rewrite H. reflexivity.
    - unfold platform_ok. rewrite H. cbn [str_in existsb orb].
      now rewrite andb_false_r.
    - assert (Hp : price_ok c r = false).
      { unfold price_ok. destruct (f_leb _ (price r)) eqn:E1; [|reflexivity].
        destruct (f_leb (price r) _) eqn:E2; [|reflexivity].
        pose proof (f_leb_trans _ _ _ E1 E2) as E.
        unfold f_leb, of_int in E. cbn [ext_leb] in E.
        rewrite dec_leb_of_Z in E. apply Z.leb_le in E. lia. }
      rewrite Hp. now rewrite andb_false_r. }
  induction (rows df) as [|r rs IH]; [reflexivity|].
  cbn [filter]. now rewrite Hnone.
Qed.

Lemma empty_selection_shows_nothing_sample :
  rows (filtered_df (Criteria [] (0, 100000) [All] All) abc_table) = []
  /\ rows (filtered_df (Criteria [All] (60000, 40000) [All] All) abc_table) = [].
Proof.
  split.
  - apply (empty_selection_shows_nothing
             (Criteria [] (0, 100000) [All] All) abc_table).
    left. reflexivity.
  - apply (empty_selection_shows_nothing
             (Criteria [All] (60000, 40000) [All] All) abc_table).
    right. right. reflexivity.
Defined.

(* ================================================================== *)
(** * The bounds of the price slider *)

Lemma preprocess_data_rows (dp : DateParser) df t :
  preprocess_data df = Ok t ->
  rows t = map (clean_row (has_date df))
               (filter (fun r => negb (unparsable r)) (rows df))
  /\ has_date t = has_date df.
Proof.
  intros H. destruct (rows df) as [|r0 rs] eqn:E.
  - rewrite (preprocess_data_empty df E) in H. injection H as <-. auto.
  - destruct (has_rating df) eqn:Hr.
    + rewrite (preprocess_data_spec df Hr) in H. injection H as <-.
      cbn [rows has_date]. now rewrite E.
    + rewrite preprocess_data_key_error in H by congruence. discriminate.
Qed.

Lemma preprocess_data_notna (dp : DateParser) df t :
  preprocess_data df = Ok t ->
  forall l, In l (rows t) -> isna (price l) = false.
Proof.
  intros H l Hl. apply preprocess_data_rows in H as [H _].
  rewrite H in Hl. apply in_map_iff in Hl as [r [<- Hr]].
  apply filter_In in Hr as [_ Hr]. rewrite price_clean_row.
  unfold unparsable in Hr. now apply negb_true_iff in Hr.
Qed.


Lemma prices_notna (t : table) :
  (forall l, In l (rows t) -> isna (price l) = false) ->
  forall x, In x (map price (rows t)) -> isna x = false.
Proof.
  intros H x Hx. apply in_map_iff in Hx as [l [<- Hl]]. now apply H.
Qed.

Lemma default_price_range_None (t : table) :
  (forall x, In x (map price (rows t)) -> isna x = false) ->
  (default_price_range t = None
   <-> rows t = [] \/ exists l, In l (rows t) /\ is_fin (price l) = false).
Proof.
  intros Hna.
  unfold default_price_range.
  set (prices := map price (rows t)) in *.
  destruct (rows t) as [|l0 ls] eqn:E.
  { subst prices. cbn. split; auto. }
  assert (Hne : prices <> []) by (subst prices; discriminate).
  destruct (series_min_spec prices Hne Hna) as [Hmin_in Hmin].
  destruct (series_max_spec prices Hne Hna) as [Hmax_in Hmax].
  split.
  - intros H. right.
    assert (Hbad : is_fin (series_min prices) = false
                   \/ is_fin (series_max prices) = false).
    { destruct (series_min prices), (series_max prices); cbn in H;
        try discriminate; auto. }
    destruct Hbad as [Hbad|Hbad];
      [apply in_map_iff in Hmin_in as [l [El Hl]]
      |apply in_map_iff in Hmax_in as [l [El Hl]]];
      exists l; (split; [exact Hl|now rewrite El]).
  - intros [H|[l [Hl Hfin]]]; [discriminate|].
    assert (Hp : In (price l) prices) by (subst prices; now apply in_map).
    pose proof (Hna _ Hp) as Hnan.
    specialize (Hmin _ Hp). specialize (Hmax _ Hp).
    destruct (price l) as [d| | |]; try discriminate.
    + destruct (series_max prices); cbn in Hmax; try discriminate.
      now destruct (py_int (series_min prices)).
    + destruct (series_min prices); cbn in Hmin; try discriminate.
      reflexivity.
Qed.

(** Line 238 raises (on [int(nan)] or on [int] of an infinity) exactly
    when the preprocessed table has no rows or has an infinite price:
    a dataset in which no price can be read stops [main] there. *)
Theorem slider_bounds_fail_without_finite_prices
    (dp : DateParser) (df : raw_frame) (t : table) :
  preprocess_data df = Ok t ->
  (default_price_range t = None
   <-> rows t = [] \/ exists l, In l (rows t) /\ is_fin (price l) = false).
Proof.
  intros Hpre. apply default_price_range_None.
  apply prices_notna. now apply (preprocess_data_notna dp df).
Qed.

Lemma slider_bounds_fail_without_finite_prices_sample :
  default_price_range (Frame true true []) = None
  <-> @rows float64 float64 (option timestamp) (Frame true true []) = []
      \/ exists l, In l (@rows float64 float64 (option timestamp)
                           (Frame true true []))
                   /\ is_fin (price l) = false.
Proof.
  apply (slider_bounds_fail_without_finite_prices iso_date
           (Frame true true
              [mk_raw "Dell" "Inspiron" "Flipkart" (Str (lit "call us")) "Bhopal"
                      (Num NaN) DNaT])
           (Frame true true [])).
  reflexivity.
Defined.



(* ================================================================== *)
(** * More on the Aggregator *)



Lemma StronglySorted_app_inv {A} (R : A -> A -> Prop) l1 l2 :
  StronglySorted R (l1 ++ l2) ->
  forall a b, In a l1 -> In b l2 -> R a b.
Proof.
  induction l1 as [|x l1 IH]; intros Hs a b Ha Hb; [destruct Ha|].
  cbn [app] in Hs. inversion Hs as [|? ? Hs' Hall]; subst.
  destruct Ha as [<-|Ha].
  - rewrite Forall_forall in Hall. apply Hall, in_or_app. now right.
  - now apply IH.
Qed.


(** ** Every row is counted once *)








(** ** The least price is not above the mean *)

Lemma dec_leb_Qle a b : dec_leb a b = true <-> (dec_Q a <= dec_Q b)%Q.
Proof.
  unfold dec_leb, dec_Q, Qle. cbn [Qnum Qden].
  rewrite !pos_pow10. apply Z.leb_le.
Qed.

Lemma round_half_even_range q :
  Qfloor q <= round_half_even q <= Qfloor q + 1.
Proof.
  unfold round_half_even.
  destruct (Qcompare _ _); [destruct (Z.even _)| |]; lia.
Qed.

Lemma round_half_even_monotone q1 q2 :
  (q1 <= q2)%Q -> round_half_even q1 <= round_half_even q2.
Proof.
  intros H. pose proof (Qfloor_resp_le _ _ H) as Hf.
  pose proof (round_half_even_range q1) as R1.
  pose proof (round_half_even_range q2) as R2.
  destruct (Z.eq_dec (Qfloor q1) (Qfloor q2)) as [E|E]; [|lia].
  unfold round_half_even in *. rewrite E in *.
  destruct (Qcompare_spec (q1 - inject_Z (Qfloor q2)) (1 # 2)) as [C1|C1|C1];
    destruct (Qcompare_spec (q2 - inject_Z (Qfloor q2)) (1 # 2)) as [C2|C2|C2];
    try lia; try (destruct (Z.even (Qfloor q2)); lia); exfalso; lra.
Qed.

Lemma min_times_length_le_sum m xs :
  (forall x, In x xs -> is_fin x = true) ->
  (forall x, In x xs -> f_leb (Fin m) x = true) ->
  (dec_Q m * inject_Z (Z.of_nat (length xs)) <= sum_Q xs)%Q.
Proof.
  induction xs as [|x xs IH]; intros Hfin H.
  - cbn [length sum_Q fold_right]. change (inject_Z (Z.of_nat 0)) with 0%Q. lra.
  - assert (Hx : f_leb (Fin m) x = true) by (apply H; now left).
    assert (Hfx : is_fin x = true) by (apply Hfin; now left).
    assert (IH' : (dec_Q m * inject_Z (Z.of_nat (length xs)) <= sum_Q xs)%Q).
    { apply IH; intros y Hy; [apply Hfin|apply H]; now right. }
    destruct x as [d| | |]; try discriminate.
    apply dec_leb_Qle in Hx.
    cbn [length sum_Q fold_right]. fold (sum_Q xs).
    rewrite Nat2Z.inj_succ. unfold Z.succ. rewrite inject_Z_plus.
    change (inject_Z 1) with 1%Q. lra.
Qed.





(* ================================================================== *)
(** * The bar chart and the pie chart *)













(* ================================================================== *)
(** * The trend chart on dated rows *)

Lemma period_eqb_eq a b : period_eqb a b = true <-> a = b.
Proof.
  destruct a as [y1 m1], b as [y2 m2]. unfold period_eqb. cbn [fst snd].
  rewrite andb_true_iff, !Z.eqb_eq. split.
  - intros [-> ->]. reflexivity.
  - intros E. injection E as -> ->. auto.
Qed.

Lemma period_leb_spec a b :
  period_leb a b = true
  <-> fst a < fst b \/ (fst a = fst b /\ snd a <= snd b).
Proof.
  unfold period_leb.
  rewrite orb_true_iff, andb_true_iff, Z.ltb_lt, Z.eqb_eq, Z.leb_le. tauto.
Qed.

Lemma period_leb_total a b : period_leb a b = true \/ period_leb b a = true.
Proof. rewrite !period_leb_spec. lia. Qed.

Lemma period_leb_antisym a b :
  period_leb a b = true -> period_leb b a = true -> a = b.
Proof.
  rewrite !period_leb_spec. destruct a, b. cbn [fst snd].
  intros H1 H2. f_equal; lia.
Qed.

Lemma period_leb_trans a b c :
  period_leb a b = true -> period_leb b c = true -> period_leb a c = true.
Proof. rewrite !period_leb_spec. lia. Qed.

Lemma has_key_in_month y m r :
  has_key period_eqb to_period_M (y, m) r = in_month y m r.
Proof.
  unfold has_key, to_period_M, in_month. destruct (date r); reflexivity.
Qed.

Lemma first_of_month_order a b :
  strictly_below period_leb a b ->
  strictly_below date_leb (Date (fst a) (snd a) 1) (Date (fst b) (snd b) 1).
Proof.
  intros [Hle Hne]. apply period_leb_spec in Hle. split.
  - unfold date_leb. cbn [year month day].
    rewrite orb_true_iff, andb_true_iff, orb_true_iff, andb_true_iff,
      !Z.ltb_lt, !Z.eqb_eq, Z.leb_le.
    destruct (Z.eq_dec (snd a) (snd b)); lia.
  - intros E. injection E as E1 E2. apply Hne.
    destruct a, b. cbn [fst snd] in *. congruence.
Qed.

(** On a table that has a date column and a dated row, the trend chart
    is drawn from the rows themselves and no random number is drawn:
    there is one point for each month in which a row is dated, set on
    the first of the month, the points stand in the order of time, and
    each is the mean price of the rows of its month.  Rows without a
    date do not count. *)
Theorem trend_chart_shows_monthly_means (df : table) (g : rng) :
  has_date df = true ->
  (exists r, In r (rows df) /\ date r <> None) ->
  exists pts,
    create_price_trend_chart df g = (MonthlyPrices pts, g)
    /\ StronglySorted (strictly_below date_leb) (map fst pts)
    /\ (forall d v, In (d, v) pts ->
          day d = 1
          /\ v = agg_mean (map price (filter (in_month (year d) (month d)) (rows df)))
          /\ exists r, In r (rows df) /\ in_month (year d) (month d) r = true)
    /\ (forall r t, In r (rows df) -> date r = Some t ->
          In (Date (year t) (month t) 1) (map fst pts)).
Proof.
  intros Hd [r0 [Hr0 Hdate0]]. unfold create_price_trend_chart.
  match goal with
  | |- context [negb (has_date df) || forallb ?f (rows df)] =>
      assert (Hcond : negb (has_date df) || forallb f (rows df) = false)
  end.
  { rewrite Hd. cbn [negb orb].
    match goal with |- ?b = false => destruct b eqn:E end; [|reflexivity].
    rewrite forallb_forall in E. specialize (E r0 Hr0).
    destruct (date r0); [discriminate|congruence]. }
  rewrite Hcond.
  set (ks := group_keys period_eqb period_leb to_period_M (rows df)).
  exists (map (fun k : Z * Z =>
                 (Date (fst k) (snd k) 1,
                  agg_mean (map price
                    (filter (has_key period_eqb to_period_M k) (rows df)))))
              ks).
  split; [f_equal; f_equal; unfold groupby; apply map_map|].
  assert (Hsorted : StronglySorted (strictly_below period_leb) ks).
  { apply Sorted_StronglySorted.
    - intros a b c. apply (k_lt_trans period_leb period_leb_antisym period_leb_trans).
    - apply (group_keys_Sorted period_eqb period_leb to_period_M
               period_eqb_eq period_leb_total). }
  assert (Hkeys : forall k, In k ks <->
             exists r, In r (rows df) /\ to_period_M r = Some k).
  { intros k. apply (group_keys_In period_eqb period_leb _ period_eqb_eq). }
  split; [|split].
  - rewrite map_map. cbn [fst].
    clear -Hsorted. induction Hsorted as [|k ks Hs IH Hall]; cbn [map].
    + constructor.
    + constructor; [exact IH|].
      rewrite Forall_forall in *. intros d Hin.
      apply in_map_iff in Hin as [k' [<- Hk']].
      apply first_of_month_order. now apply Hall.
  - intros d v H. apply in_map_iff in H as [[y m] [E Hk]].
    cbn [fst snd] in E. injection E as <- <-. cbn [year month day].
    split; [reflexivity|]. split.
    + f_equal. f_equal. apply filter_ext_eq. intros r. apply has_key_in_month.
    + apply Hkeys in Hk as [r [Hr Er]]. exists r. split; [exact Hr|].
      unfold to_period_M in Er. unfold in_month.
      destruct (date r) as [t|]; [|discriminate].
      injection Er as <- <-. now rewrite !Z.eqb_refl.
  - intros r t Hr Et. rewrite map_map. cbn [fst].
    apply in_map_iff. exists (year t, month t). split; [reflexivity|].
    apply Hkeys. exists r. split; [exact Hr|].
    unfold to_period_M. now rewrite Et.
Qed.

Lemma trend_chart_shows_monthly_means_sample :
  exists pts,
    create_price_trend_chart dated_table counting = (MonthlyPrices pts, counting)
    /\ StronglySorted (strictly_below date_leb) (map fst pts)
    /\ (forall d v, In (d, v) pts ->
          day d = 1
          /\ v = agg_mean (map price (filter (in_month (year d) (month d))
                                             (rows dated_table)))
          /\ exists r, In r (rows dated_table) /\ in_month (year d) (month d) r = true)
    /\ (forall r t, In r (rows dated_table) -> date r = Some t ->
          In (Date (year t) (month t) 1) (map fst pts)).
Proof.
  apply (trend_chart_shows_monthly_means dated_table counting).
  - reflexivity.
  - eexists. split; [left; reflexivity|discriminate].
Defined.

Example trend_chart_three_months :
  fst (create_price_trend_chart dated_table counting)
  = MonthlyPrices [ (Date 2023 12 1, Fin (38000 # 1));
                    (Date 2024 1 1, Fin (60000 # 1));
                    (Date 2024 3 1, Fin (100000 # 2)) ].
Proof. reflexivity. Qed.

(* ================================================================== *)
(** * Amounts as [main] shows them *)

Lemma commas_rev_plain n : forall r,
  (length r <= n)%nat -> forallb plain r = true ->
  filter plain (commas_rev r) = r.
Proof.
  induction n as [|n IH]; intros r Hlen Hr.
  - destruct r; [reflexivity|cbn in Hlen; lia].
  - destruct r as [|a [|b [|c [|d rest]]]];
      try (cbn [commas_rev]; now apply filter_all, forallb_forall).
    change (commas_rev (a :: b :: c :: d :: rest))
      with (a :: b :: c :: ch "," :: commas_rev (d :: rest)).
    cbn [forallb] in Hr.
    apply andb_prop in Hr as [Ha Hr]. apply andb_prop in Hr as [Hb Hr].
    apply andb_prop in Hr as [Hc Hr].
    cbn [filter]. rewrite Ha, Hb, Hc.
    change (plain (ch ",")) with false. cbn iota.
    rewrite IH; [reflexivity| |exact Hr].
    cbn [length] in *. lia.
Qed.

Lemma with_commas_plain ds :
  forallb is_digit ds = true -> str_replace (with_commas ds) = ds.
Proof.
  intros Hds. unfold str_replace, with_commas.
  change (fun c : char => negb (N.eqb c rupee || N.eqb c (ch ","))) with plain.
  rewrite filter_rev, (commas_rev_plain (length (rev ds))).
  - apply rev_involutive.
  - reflexivity.
  - rewrite forallb_forall. intros c Hc. apply in_rev in Hc.
    apply digits_plain in Hds. rewrite forallb_forall in Hds. now apply Hds.
Qed.

Lemma round_half_even_sign q :
  (if Qle_bool 0 q then 0 <= round_half_even q else round_half_even q <= 0).
Proof.
  pose proof (round_half_even_range q) as R.
  destruct (Qle_bool 0 q) eqn:E.
  - apply Qle_bool_iff in E. apply Qfloor_resp_le in E.
    change (Qfloor 0) with 0 in E. lia.
  - assert (Hq : (q < 0)%Q).
    { apply Qnot_le_lt. intros H. apply Qle_bool_iff in H. congruence. }
    assert (Hf : Qfloor q < 0).
    { rewrite Zlt_Qlt. change (inject_Z 0) with 0%Q.
      pose proof (Qfloor_le q). lra. }
    lia.
Qed.

Lemma clean_price_rupees q :
  clean_price (Str (rupees (Fin q))) = of_int (round_half_even q).
Proof.
  unfold clean_price, rupees, format_comma_0f. cbn [astype_str to_numeric].
  set (z := round_half_even q).
  set (ds := digits_of_N (Z.to_N (Z.abs z))).
  set (neg := negb (Qle_bool 0 q)).
  assert (Hds : forallb is_digit ds = true) by apply digits_of_N_digits.
  assert (Hne : ds <> []) by apply digits_of_N_nonempty.
  assert (Hstrip : str_replace
                     (rupee :: (if Qle_bool 0 q then [] else [ch "-"])
                               ++ with_commas ds)
                   = sign_str neg ++ ds ++ exp_str None).
  { cbn [exp_str]. rewrite app_nil_r.
    pose proof (with_commas_plain ds Hds) as Hc. unfold str_replace in *.
    cbn [filter]. rewrite N.eqb_refl. cbn [orb negb].
    unfold neg. destruct (Qle_bool 0 q); cbn [negb sign_str app]; [exact Hc|].
    cbn [filter]. change (negb (N.eqb (ch "-") rupee || N.eqb (ch "-") (ch ",")))
      with true. cbn iota. now rewrite Hc. }
  rewrite Hstrip. unfold to_numeric_str.
  rewrite xstrtod_integer by easy. cbn [exp_val]. rewrite scale10_0.
  unfold of_int, dec_of_Z. f_equal. unfold norm. cbn [mant scale norm_aux].
  f_equal. unfold ds. rewrite N_of_digits_of_N. unfold signed, neg.
  pose proof (round_half_even_sign q) as Hs. fold z in Hs.
  destruct (Qle_bool 0 q); cbn [negb]; lia.
Qed.

(** The amounts on the page are written the way line 77 reads them: a
    shown amount, cleaned as a price is, gives the amount rounded to a
    whole number of rupees. *)
Theorem shown_amount_reads_back (x : ext Q) :
  clean_price (Str (rupees x))
  = match x with
    | Fin q => of_int (round_half_even q)
    | PInf => PInf
    | NInf => NInf
    | NaN => NaN
    end.
Proof.
  destruct x as [q| | |]; try reflexivity. apply clean_price_rupees.
Qed.

(* ================================================================== *)
(** * How [main] ends *)

Lemma empty_rows {P R D} (df : frame P R D) : empty df = true <-> rows df = [].
Proof. unfold empty. destruct (rows df); split; congruence. Qed.

Lemma empty_false {P R D} (df : frame P R D) : empty df = false <-> rows df <> [].
Proof. unfold empty. destruct (rows df); split; congruence. Qed.

Lemma preprocess_data_has_rating (dp : DateParser) raw df :
  rows raw <> [] -> preprocess_data raw = Ok df -> has_rating df = true.
Proof.
  intros Hne H. destruct (has_rating raw) eqn:Hr.
  - rewrite preprocess_data_spec in H by assumption. now injection H as <-.
  - rewrite preprocess_data_key_error in H by assumption. discriminate.
Qed.


(** [main] past the widgets. *)
Lemma main_run (dp : DateParser) (raw : raw_frame) s g (df : table) c :
  rows raw <> [] -> preprocess_data raw = Ok df -> selection df s = Some c ->
  main (Some raw) s g
  = if empty (filtered_df c df)
    then (NoData (key_metrics (filtered_df c df)) [no_data_warning], g)
    else (Shown (key_metrics (filtered_df c df))
            (Dashboard
               (cards_from 0 (identify_cheapest_platforms (filtered_df c df)))
               (create_price_per_platform_chart (filtered_df c df))
               (create_price_distribution_chart (filtered_df c df))
               (fst (create_price_trend_chart (filtered_df c df) g))
               (create_platform_market_share_chart (filtered_df c df))
               (snd (create_rating_price_scatter (filtered_df c df)))
               (detail_table (filtered_df c df)))
            (map Notice (fst (create_rating_price_scatter (filtered_df c df)))),
          snd (create_price_trend_chart (filtered_df c df) g)).
Proof.
  intros Hne Hpre Hsel. unfold main. cbn [load_data].
  apply empty_false in Hne as He. rewrite He, Hpre, Hsel.
  destruct (empty (filtered_df c df)); [reflexivity|].
  destruct (create_price_trend_chart (filtered_df c df) g) as [f3 g'].
  destruct (create_rating_price_scatter (filtered_df c df)) as [w f5].
  cbn [fst snd app].
  assert (Hr : has_rating (filtered_df c df) = true).
  { cbn [filtered_df has_rating].
    apply (preprocess_data_has_rating dp raw df); [|assumption].
    now apply empty_false. }
  now rewrite Hr.
Qed.

(** [main] stops before it shows anything in two cases only: the file
    is not there, and then the page holds the error message of
    [load_data]; or the file has no rows, and then the page holds no
    message at all. *)
Theorem main_stops_without_rows
    (dp : DateParser) (file : option raw_frame) (s : session) (g : rng)
    (msgs : list message) :
  fst (main file s g) = Stopped msgs
  <-> (file = None
       /\ msgs = [Error "Dataset not found. Please ensure 'data/laptop_prices.csv' exists."])
      \/ (exists raw, file = Some raw /\ rows raw = [] /\ msgs = []).
Proof.
  split.
  - destruct file as [raw|].
    + intros H. right. exists raw. unfold main in H. cbn [load_data] in H.
      destruct (empty raw) eqn:E.
      * cbn [fst] in H. injection H as <-. apply empty_rows in E. auto.
      * exfalso. destruct (preprocess_data raw) as [df|col]; [|discriminate].
        destruct (selection df s) as [c|]; [|discriminate].
        destruct (empty (filtered_df c df)); [discriminate|].
        destruct (create_price_trend_chart _ g), (create_rating_price_scatter _).
        destruct (has_rating (filtered_df c df)); discriminate.
    + intros H. left. cbn in H. injection H as <-. auto.
  - intros [[-> ->]|[raw [-> [E ->]]]]; [reflexivity|].
    unfold main. cbn [load_data]. apply empty_rows in E. now rewrite E.
Qed.


(* ================================================================== *)
(** * The page [main] shows *)

Lemma main_shows_inv (dp : DateParser) file s g :
  (exists m msgs, fst (main file s g) = NoData m msgs)
  \/ (exists m d msgs, fst (main file s g) = Shown m d msgs) ->
  exists raw df c,
    file = Some raw /\ rows raw <> [] /\ preprocess_data raw = Ok df
    /\ selection df s = Some c.
Proof.
  intros H. destruct file as [raw|].
  2:{ cbn in H. destruct H as [(m & msgs & H)|(m & d & msgs & H)]; discriminate. }
  unfold main in H. cbn [load_data] in H.
  destruct (empty raw) eqn:E.
  { destruct H as [(m & msgs & H)|(m & d & msgs & H)]; discriminate. }
  destruct (preprocess_data raw) as [df|col] eqn:Hpre.
  2:{ destruct H as [(m & msgs & H)|(m & d & msgs & H)]; discriminate. }
  destruct (selection df s) as [c|] eqn:Hsel.
  2:{ destruct H as [(m & msgs & H)|(m & d & msgs & H)]; discriminate. }
  exists raw, df, c. apply empty_false in E. auto.
Qed.

(** When nothing passes the filters, [main] shows 0 products and three
    amounts of ₹0, warns that there is no data, and builds no chart: no
    random number is drawn. *)
Theorem main_shows_no_data
    (dp : DateParser) (file : option raw_frame) (s : session) (g g' : rng)
    (m : metrics) (msgs : list message) :
  main file s g = (NoData m msgs, g') ->
  m = Metrics 0 (rupee :: lit "0") (rupee :: lit "0") (rupee :: lit "0")
  /\ msgs = [no_data_warning]
  /\ g' = g
  /\ exists raw df c,
       file = Some raw /\ preprocess_data raw = Ok df
       /\ selection df s = Some c /\ rows (filtered_df c df) = [].
Proof.
  intros H.
  destruct (main_shows_inv dp file s g) as (raw & df & c & -> & Hne & Hpre & Hsel).
  { left. exists m, msgs. now rewrite H. }
  rewrite (main_run dp raw s g df c Hne Hpre Hsel) in H.
  destruct (empty (filtered_df c df)) eqn:E; [|discriminate].
  injection H as <- <- <-. unfold key_metrics. rewrite E.
  repeat split. exists raw, df, c. apply empty_rows in E. auto.
Qed.

Lemma main_shows_no_data_sample :
  Metrics 0 (rupee :: lit "0") (rupee :: lit "0") (rupee :: lit "0")
  = Metrics 0 (rupee :: lit "0") (rupee :: lit "0") (rupee :: lit "0")
  /\ [no_data_warning] = [no_data_warning]
  /\ counting = counting
  /\ exists raw df c,
       Some mixed_frame = Some raw /\ @preprocess_data iso_date raw = Ok df
       /\ selection df (Session (Some []) None None None) = Some c
       /\ rows (filtered_df c df) = [].
Proof.
  apply (main_shows_no_data iso_date (Some mixed_frame)
           (Session (Some []) None None None) counting counting).
  reflexivity.
Defined.





(* ================================================================== *)
(** * The data table and the metrics *)

Lemma round_half_even_comp q1 q2 :
  (q1 == q2)%Q -> round_half_even q1 = round_half_even q2.
Proof.
  intros E. apply Z.le_antisymm; apply round_half_even_monotone; lra.
Qed.

Lemma rupees_comp q1 q2 :
  (q1 == q2)%Q -> rupees (Fin q1) = rupees (Fin q2).
Proof.
  intros E. unfold rupees, format_comma_0f.
  rewrite (round_half_even_comp _ _ E).
  now rewrite (Qleb_comp 0%Q 0%Q (Qeq_refl 0) q1 q2 E).
Qed.

Lemma f_leb_antisym_Q a b :
  f_leb (Fin a) (Fin b) = true -> f_leb (Fin b) (Fin a) = true ->
  (dec_Q a == dec_Q b)%Q.
Proof.
  unfold f_leb. cbn [ext_leb]. rewrite !dec_leb_Qle. lra.
Qed.

Lemma detail_table_Permutation df :
  Permutation (detail_table df) (map (set_date (fun _ => tt)) (rows df)).
Proof. apply sort_values_Permutation. Qed.

Lemma detail_table_price_In df (a : detail_row) :
  In a (detail_table df) -> In (price a) (map price (rows df)).
Proof.
  intros H. apply (Permutation_in _ (detail_table_Permutation df)) in H.
  apply in_map_iff in H as [r [<- Hr]]. cbn [set_date price].
  now apply in_map.
Qed.

Lemma price_In_detail_table df x :
  In x (map price (rows df)) -> exists a, In a (detail_table df) /\ price a = x.
Proof.
  intros H. apply in_map_iff in H as [r [<- Hr]].
  exists (set_date (fun _ => tt) r). split; [|reflexivity].
  apply (Permutation_in _ (Permutation_sym (detail_table_Permutation df))).
  now apply in_map.
Qed.

Lemma detail_table_sorted df :
  (forall r, In r (rows df) -> is_fin (price r) = true) ->
  StronglySorted (fun a b : detail_row => f_leb (price a) (price b) = true)
                 (detail_table df).
Proof.
  intros Hfin. apply (StronglySorted_impl_in (le_of by_row_price)).
  - apply sort_values_Sorted.
    + intros a b. apply na_last_leb_total.
    + intros a b d. apply na_last_leb_trans.
  - intros a b Ha Hb. unfold le_of, by_row_price.
    apply detail_table_price_In in Ha, Hb.
    apply in_map_iff in Ha as [ra [Ea Hra]].
    apply in_map_iff in Hb as [rb [Eb Hrb]].
    assert (Fa : is_fin (price a) = true)
      by exact (eq_trans (f_equal is_fin (eq_sym Ea)) (Hfin ra Hra)).
    assert (Fb : is_fin (price b) = true)
      by exact (eq_trans (f_equal is_fin (eq_sym Eb)) (Hfin rb Hrb)).
    destruct (price a), (price b); try discriminate. auto.
Qed.

(** The data table holds the filtered rows, without their dates, in
    ascending order of price; the amount under "Lowest Price" is the
    price in its first row, and the amount under "Highest Price" the
    price in its last row. *)
Theorem data_table_sorted_by_price (c : criteria) (t : table) :
  Permutation (detail_table (filtered_df c t))
              (map (set_date (fun _ => tt)) (rows (filtered_df c t)))
  /\ StronglySorted (fun a b : detail_row => f_leb (price a) (price b) = true)
                    (detail_table (filtered_df c t))
  /\ (forall first rest,
        detail_table (filtered_df c t) = first :: rest ->
        lowest_price (key_metrics (filtered_df c t)) = rupees (q_of (price first)))
  /\ (forall init final,
        detail_table (filtered_df c t) = init ++ [final] ->
        highest_price (key_metrics (filtered_df c t)) = rupees (q_of (price final))).
Proof.
  set (df := filtered_df c t).
  assert (Hfin : forall r, In r (rows df) -> is_fin (price r) = true)
    by (intros r; apply filtered_df_fin).
  pose proof (detail_table_sorted df Hfin) as Hs.
  assert (Hpfin : forall x, In x (map price (rows df)) -> is_fin x = true).
  { intros x Hx. apply in_map_iff in Hx as [r [<- Hr]]. now apply Hfin. }
  assert (Hna : forall x, In x (map price (rows df)) -> isna x = false).
  { intros x Hx. specialize (Hpfin x Hx). now destruct x. }
  assert (Hends : forall a, In a (detail_table df) ->
            rows df <> [] /\ map price (rows df) <> [] /\ empty df = false).
  { intros a Ha. apply detail_table_price_In in Ha.
    assert (Hp : map price (rows df) <> [])
      by (intros E; rewrite E in Ha; destruct Ha).
    assert (Hr : rows df <> [])
      by (intros E; apply Hp; now rewrite E).
    split; [assumption|]. split; [assumption|]. now apply empty_false. }
  split; [apply detail_table_Permutation|]. split; [exact Hs|]. split.
  - intros first rest E.
    destruct (Hends first) as (Hr & Hp & He); [rewrite E; now left|].
    unfold key_metrics. rewrite He. cbn [lowest_price].
    destruct (series_min_spec _ Hp Hna) as [Hin Hmin].
    destruct (price_In_detail_table df _ Hin) as [a [Ha Ea]].
    assert (Hfirst_in : In (price first) (map price (rows df)))
      by (apply detail_table_price_In; rewrite E; now left).
    pose proof (Hmin _ Hfirst_in) as Hle1.
    assert (Hle2 : f_leb (price first) (series_min (map price (rows df))) = true).
    { rewrite <- Ea. rewrite E in Ha, Hs. destruct Ha as [<-|Ha].
      - apply f_leb_refl. now apply Hpfin.
      - inversion Hs as [|? ? _ Hall]; subst. rewrite Forall_forall in Hall.
        now apply Hall. }
    pose proof (Hpfin _ Hin) as F1. pose proof (Hpfin _ Hfirst_in) as F2.
    destruct (series_min (map price (rows df))) as [dm| | |]; try discriminate.
    destruct (price first) as [df1| | |]; try discriminate.
    cbn [q_of]. apply rupees_comp. now apply f_leb_antisym_Q.
  - intros init final E.
    destruct (Hends final) as (Hr & Hp & He);
      [rewrite E; apply in_or_app; right; now left|].
    unfold key_metrics. rewrite He. cbn [highest_price].
    destruct (series_max_spec _ Hp Hna) as [Hin Hmax].
    destruct (price_In_detail_table df _ Hin) as [a [Ha Ea]].
    assert (Hfinal_in : In (price final) (map price (rows df)))
      by (apply detail_table_price_In; rewrite E; apply in_or_app; right; now left).
    pose proof (Hmax _ Hfinal_in) as Hle1.
    assert (Hle2 : f_leb (series_max (map price (rows df))) (price final) = true).
    { rewrite <- Ea. rewrite E in Ha, Hs. apply in_app_or in Ha as [Ha|[<-|[]]].
      - apply (StronglySorted_app_inv _ _ _ Hs a final Ha). now left.
      - apply f_leb_refl. now apply Hpfin. }
    pose proof (Hpfin _ Hin) as F1. pose proof (Hpfin _ Hfinal_in) as F2.
    destruct (series_max (map price (rows df))) as [dm| | |]; try discriminate.
    destruct (price final) as [df1| | |]; try discriminate.
    cbn [q_of]. apply rupees_comp. now apply f_leb_antisym_Q.
Qed.

Lemma sum_le_max_times_length M xs :
  (forall x, In x xs -> is_fin x = true) ->
  (forall x, In x xs -> f_leb x (Fin M) = true) ->
  (sum_Q xs <= dec_Q M * inject_Z (Z.of_nat (length xs)))%Q.
Proof.
  induction xs as [|x xs IH]; intros Hfin H.
  - cbn [length sum_Q fold_right]. change (inject_Z (Z.of_nat 0)) with 0%Q. lra.
  - assert (Hx : f_leb x (Fin M) = true) by (apply H; now left).
    assert (Hfx : is_fin x = true) by (apply Hfin; now left).
    assert (IH' : (sum_Q xs <= dec_Q M * inject_Z (Z.of_nat (length xs)))%Q).
    { apply IH; intros y Hy; [apply Hfin|apply H]; now right. }
    destruct x as [d| | |]; try discriminate.
    apply dec_leb_Qle in Hx.
    cbn [length sum_Q fold_right]. fold (sum_Q xs).
    rewrite Nat2Z.inj_succ. unfold Z.succ. rewrite inject_Z_plus.
    change (inject_Z 1) with 1%Q. lra.
Qed.

Lemma f_leb_of_int a b : f_leb (of_int a) (of_int b) = (a <=? b).
Proof. unfold f_leb, of_int. cbn [ext_leb]. apply dec_leb_of_Z. Qed.

(** The three amounts on the page, read as line 77 reads a price, are
    in order: the lowest price is not above the average price, and the
    average price is not above the highest. *)
Theorem shown_metrics_in_order (c : criteria) (t : table) :
  rows (filtered_df c t) <> [] ->
  f_leb (clean_price (Str (lowest_price (key_metrics (filtered_df c t)))))
        (clean_price (Str (average_price (key_metrics (filtered_df c t))))) = true
  /\ f_leb (clean_price (Str (average_price (key_metrics (filtered_df c t)))))
           (clean_price (Str (highest_price (key_metrics (filtered_df c t))))) = true.
Proof.
  set (df := filtered_df c t). intros Hne.
  assert (Hpfin : forall x, In x (map price (rows df)) -> is_fin x = true).
  { intros x Hx. apply in_map_iff in Hx as [r [<- Hr]].
    now apply (filtered_df_fin c t). }
  assert (Hp : map price (rows df) <> []).
  { intros E. apply Hne. destruct (rows df); [reflexivity|discriminate]. }
  unfold key_metrics. rewrite (proj2 (empty_false df) Hne).
  cbn [lowest_price average_price highest_price].
  destruct (agg_mean_fin _ Hp Hpfin) as [q [-> Eq]].
  destruct (agg_min_fin _ Hp Hpfin) as [m [Em [Hmin_in Hmin]]].
  unfold agg_min in Em. rewrite Em.
  assert (Hna : forall x, In x (map price (rows df)) -> isna x = false).
  { intros x Hx. specialize (Hpfin x Hx). now destruct x. }
  destruct (series_max_spec _ Hp Hna) as [Hmax_in Hmax].
  pose proof (Hpfin _ Hmax_in) as Fmax.
  destruct (series_max (map price (rows df))) as [M| | |]; try discriminate.
  cbn [q_of]. rewrite !clean_price_rupees, !f_leb_of_int.
  pose proof (min_times_length_le_sum m _ Hpfin Hmin) as Hlo.
  pose proof (sum_le_max_times_length M _ Hpfin Hmax) as Hhi.
  rewrite <- Eq in Hlo, Hhi.
  assert (Hn : (0 < inject_Z (Z.of_nat (length (map price (rows df)))))%Q).
  { rewrite <- (Zlt_Qlt 0).
    destruct (map price (rows df)); [congruence|cbn [length]; lia]. }
  split; apply Z.leb_le, round_half_even_monotone;
    apply Qmult_lt_0_le_reg_r
      with (inject_Z (Z.of_nat (length (map price (rows df))))); assumption.
Qed.

Lemma shown_metrics_in_order_sample :
  f_leb (clean_price (Str (lowest_price (key_metrics
           (filtered_df (select_all (40000, 60000)) abc_table)))))
        (clean_price (Str (average_price (key_metrics
           (filtered_df (select_all (40000, 60000)) abc_table))))) = true
  /\ f_leb (clean_price (Str (average_price (key_metrics
              (filtered_df (select_all (40000, 60000)) abc_table)))))
           (clean_price (Str (highest_price (key_metrics
              (filtered_df (select_all (40000, 60000)) abc_table))))) = true.
Proof.
  apply (shown_metrics_in_order (select_all (40000, 60000)) abc_table).
  discriminate.
Defined.

(* ================================================================== *)
(** * The first view *)






